(** * The BOINC staging and submission layer of the killerbeez manager

    A shallow embedding of [python/manager/lib/boinc.py]: the path helpers
    ([clean_download_path], [dir_hier_path], [filename_to_download_path]),
    the content-addressed stager ([stage_file], [get_filename],
    [_filename_for_contents]) and the job submitter ([submit_job]).

    Python values are modelled as follows.
    - [bytes] is a list of [Byte.byte].
    - [str] is the list of its Unicode code points (as [N]); [lit] turns an
      ASCII literal of the source into such a list.
    - The file store is a finite map from path to regular file; the
      functions run in a small state-and-exception monad over a [world]
      holding the store and the chronological log of the effects performed
      (calls of processes, existence tests, reads, writes, mode changes).
    - The two executables ([bin/dir_hier_path], [bin/create_work]), the
      digest ([hashlib.md5]), the project directory of the application
      configuration, the places where a file can be created and the
      interpreter's limit on the digits of an integer are the fields of
      the class [Host]. *)

From Stdlib Require Import ZArith NArith List Lia Bool.
From Stdlib Require Import Strings.Byte Strings.String.
From stdpp Require Import base option list gmap.

Local Open Scope N_scope.

(** ** Python values and library functions *)

Module Py.

Abbreviation bytes := (list byte).
Abbreviation str := (list N).

#[export] Instance byte_eq_decision : EqDecision byte := Byte.byte_eq_dec.

(** [b"..."]: a bytes literal of the source. *)
Definition blit (s : string) : bytes := list_byte_of_string s.

(** ["..."]: an ASCII string literal of the source, as code points. *)
Definition lit (s : string) : str := map Byte.to_N (list_byte_of_string s).

Definition byte_of_N (n : N) : byte := default x00 (Byte.of_N n).

(** Truthiness of an optional sequence argument: [None] and the empty
    sequence are false, anything else is true. *)
Definition truthy {A} (o : option (list A)) : bool :=
  match o with
  | Some (_ :: _) => true
  | _ => false
  end.

(** *** [str.rpartition]

    [rpartition sep s] splits at the occurrence of [sep] with the greatest
    start index and gives (head, sep, tail); when [sep] does not occur it
    gives ("", "", s). *)

Fixpoint startswith (sep s : str) : bool :=
  match sep, s with
  | [], _ => true
  | _ :: _, [] => false
  | a :: sep', c :: s' => (a =? c) && startswith sep' s'
  end.

Fixpoint rsplit_at (sep s : str) : option (str * str) :=
  match s with
  | [] => None
  | c :: s' =>
      match rsplit_at sep s' with
      | Some (hd, tl) => Some (c :: hd, tl)
      | None => if startswith sep s then Some ([], drop (length sep) s) else None
      end
  end.

Definition rpartition (sep s : str) : str * str * str :=
  match rsplit_at sep s with
  | Some (hd, tl) => (hd, sep, tl)
  | None => ([], [], s)
  end.

(** *** [os.path.basename] (posixpath): the part after the last slash. *)

Definition basename (p : str) : str :=
  match rsplit_at [47] p with
  | Some (_, tl) => tl
  | None => p
  end.

(** *** [bytes.strip]: drops leading and trailing ASCII whitespace
    (space, tab, newline, carriage return, vertical tab, form feed). *)

Definition is_space (b : byte) : bool :=
  let n := Byte.to_N b in
  (n =? 32) || ((9 <=? n) && (n <=? 13)).

Fixpoint lstrip (s : bytes) : bytes :=
  match s with
  | c :: s' => if is_space c then lstrip s' else s
  | [] => []
  end.

Definition rstrip (s : bytes) : bytes := rev (lstrip (rev s)).

Definition strip (s : bytes) : bytes := rstrip (lstrip s).

(** *** [bytes.splitlines]: breaks at LF, CR and CRLF; the line ends are
    not kept and a final line end opens no further line. *)

Fixpoint splitlines_from (cur : bytes) (s : bytes) : list bytes :=
  match s with
  | [] => match cur with [] => [] | _ => [cur] end
  | c :: s' =>
      if Byte.eqb c x0a then cur :: splitlines_from [] s'
      else if Byte.eqb c x0d then
        match s' with
        | d :: s'' =>
            if Byte.eqb d x0a then cur :: splitlines_from [] s''
            else cur :: splitlines_from [] s'
        | [] => [cur]
        end
      else splitlines_from (cur ++ [c]) s'
  end.

Definition splitlines (s : bytes) : list bytes := splitlines_from [] s.

(** *** [int] on a bytes object holding decimal digits. Anything else
    (the empty sequence included) is a [ValueError], here [None]. So is a
    string of more digits than the interpreter converts: [limit] is
    [sys.get_int_max_str_digits()], 4300 unless it is configured
    otherwise and 0 when the check is off; the interpreter applies it to
    strings of more than 640 digits only, leading zeros counted. *)

Definition is_digit (b : byte) : bool :=
  let n := Byte.to_N b in (48 <=? n) && (n <=? 57).

Definition digit_val (b : byte) : N := Byte.to_N b - 48.

Definition over_digit_limit (limit : N) (s : bytes) : bool :=
  let n := N.of_nat (length s) in
  (640 <? n) && (0 <? limit) && (limit <? n).

Definition int_of_digits (limit : N) (s : bytes) : option N :=
  match s with
  | [] => None
  | _ => if forallb is_digit s && negb (over_digit_limit limit s)
         then Some (fold_left (fun acc d => 10 * acc + digit_val d) s 0)
         else None
  end.

(** *** [repr] of a bytes object, which is what an f-string writes for it:
    [b'...'] with backslash escapes; the double quote delimits only when the
    data holds a single quote and no double quote. *)

Definition hexdigit (n : N) : N :=
  if n <? 10 then 48 + n else 87 + n.

Definition repr_quote (s : bytes) : N :=
  if existsb (Byte.eqb x27) s && negb (existsb (Byte.eqb x22) s)
  then 34 else 39.

Definition repr_byte (quote : N) (b : byte) : str :=
  let c := Byte.to_N b in
  if (c =? quote) || (c =? 92) then [92; c]
  else if c =? 9 then [92; 116]
  else if c =? 10 then [92; 110]
  else if c =? 13 then [92; 114]
  else if (c <? 32) || (127 <=? c) then [92; 120; hexdigit (c / 16); hexdigit (c mod 16)]
  else [c].

Definition bytes_repr (s : bytes) : str :=
  let q := repr_quote s in
  98 :: q :: flat_map (repr_byte q) s ++ [q].

(** *** UTF-8 *)

(** [str.encode('utf8')]: surrogates (and values that are not code points)
    are a [UnicodeEncodeError], here [None]. *)
Definition utf8_encode_cp (c : N) : option bytes :=
  if c <? 0x80 then Some [byte_of_N c]
  else if c <? 0x800 then
    Some [byte_of_N (0xC0 + c / 64); byte_of_N (0x80 + c mod 64)]
  else if c <? 0x10000 then
    if (0xD800 <=? c) && (c <=? 0xDFFF) then None
    else Some [byte_of_N (0xE0 + c / 4096);
               byte_of_N (0x80 + (c / 64) mod 64);
               byte_of_N (0x80 + c mod 64)]
  else if c <? 0x110000 then
    Some [byte_of_N (0xF0 + c / 262144);
          byte_of_N (0x80 + (c / 4096) mod 64);
          byte_of_N (0x80 + (c / 64) mod 64);
          byte_of_N (0x80 + c mod 64)]
  else None.

Fixpoint utf8_encode (s : str) : option bytes :=
  match s with
  | [] => Some []
  | c :: s' =>
      match utf8_encode_cp c, utf8_encode s' with
      | Some bs, Some rest => Some (bs ++ rest)
      | _, _ => None
      end
  end.

(** [bytes.decode('utf8')], strict: overlong forms, surrogates, values
    above U+10FFFF and truncated sequences are a [UnicodeDecodeError],
    here [None]. *)
Definition is_cont (b : byte) : bool :=
  let n := Byte.to_N b in (0x80 <=? n) && (n <=? 0xBF).

Definition cont_bits (b : byte) : N := Byte.to_N b - 0x80.

Fixpoint utf8_decode (s : bytes) : option str :=
  match s with
  | [] => Some []
  | b0 :: t0 =>
      let n0 := Byte.to_N b0 in
      if n0 <? 0x80 then cons n0 <$> utf8_decode t0
      else if (0xC2 <=? n0) && (n0 <=? 0xDF) then
        match t0 with
        | b1 :: t1 =>
            if is_cont b1
            then cons ((n0 - 0xC0) * 64 + cont_bits b1) <$> utf8_decode t1
            else None
        | _ => None
        end
      else if (0xE0 <=? n0) && (n0 <=? 0xEF) then
        match t0 with
        | b1 :: b2 :: t2 =>
            let c := (n0 - 0xE0) * 4096 + cont_bits b1 * 64 + cont_bits b2 in
            if is_cont b1 && is_cont b2 && (0x800 <=? c)
               && negb ((0xD800 <=? c) && (c <=? 0xDFFF))
            then cons c <$> utf8_decode t2
            else None
        | _ => None
        end
      else if (0xF0 <=? n0) && (n0 <=? 0xF4) then
        match t0 with
        | b1 :: b2 :: b3 :: t3 =>
            let c := (n0 - 0xF0) * 262144 + cont_bits b1 * 4096
                     + cont_bits b2 * 64 + cont_bits b3 in
            if is_cont b1 && is_cont b2 && is_cont b3
               && (0x10000 <=? c) && (c <? 0x110000)
            then cons c <$> utf8_decode t3
            else None
        | _ => None
        end
      else None
  end.

End Py.

Import Py.

(** ** The fragment of [re] used by the submitter

    A pattern is a sequence of nodes; a node is an atom, possibly wrapped
    in a capturing group; an atom is a character class taken once, or
    repeated greedily zero or more times ([*]) or one or more times ([+]).
    [match_] is the backtracking matcher of [re.match]: it is anchored at
    the start of the subject only, a repetition first takes as much as it
    can and gives characters back one at a time until the rest of the
    pattern matches. The result is the list of the captured groups. *)

Module Re.

Inductive cls :=
| Chr (b : byte)            (* a literal byte *)
| Dot                       (* [.]: any byte but the newline *)
| Range (lo hi : byte).     (* [[lo-hi]] *)

Inductive atom :=
| One (c : cls)
| Star (c : cls)
| Plus (c : cls).

Inductive node :=
| Plain (a : atom)
| Group (a : atom).

Definition cls_mem (c : cls) (b : byte) : bool :=
  match c with
  | Chr a => Byte.eqb a b
  | Dot => negb (Byte.eqb b x0a)
  | Range lo hi => (Byte.to_N lo <=? Byte.to_N b) && (Byte.to_N b <=? Byte.to_N hi)
  end.

(** Greedy repetition of [c] on [s], then the continuation [k] on what is
    left: the longest run first, shorter ones on failure. The result is
    the run taken and the result of [k]. *)
Fixpoint star {R} (c : cls) (k : bytes -> option R) (s : bytes)
  : option (bytes * R) :=
  match s with
  | b :: s' =>
      if cls_mem c b then
        match star c k s' with
        | Some (run, r) => Some (b :: run, r)
        | None => pair [] <$> k s
        end
      else pair [] <$> k s
  | [] => pair [] <$> k []
  end.

Definition match_atom {R} (a : atom) (k : bytes -> option R) (s : bytes)
  : option (bytes * R) :=
  match a with
  | One c =>
      match s with
      | b :: s' => if cls_mem c b then pair [b] <$> k s' else None
      | [] => None
      end
  | Star c => star c k s
  | Plus c =>
      match s with
      | b :: s' =>
          if cls_mem c b
          then (fun '(run, r) => (b :: run, r)) <$> star c k s'
          else None
      | [] => None
      end
  end.

Fixpoint match_here (p : list node) (s : bytes) : option (list bytes) :=
  match p with
  | [] => Some []
  | Plain a :: p' => snd <$> match_atom a (match_here p') s
  | Group a :: p' => (fun '(run, gs) => run :: gs) <$> match_atom a (match_here p') s
  end.

(** [re.match(pattern, s)]: [Some groups] is a match object, [None] is
    Python's [None]. *)
Definition match_ (p : list node) (s : bytes) : option (list bytes) :=
  match_here p s.

(** A literal stretch of a pattern. *)
Definition chars (s : string) : list node :=
  map (fun b => Plain (One (Chr b))) (list_byte_of_string s).

End Re.

(** ** The world the functions run in *)

Module Boinc.

(** A regular file of the store: its bytes and its permission bits.
    The store maps a path, as the string the code uses, to the file there;
    links and several spellings of one path are outside the model, and a
    file that exists can be opened. Directories are not files of the
    store: where a new file can be created is a property of the host
    ([can_create]), and no function here makes or removes a directory. *)
Record file := File { content : bytes; mode : N }.

(** The effects a call performs, logged in the order they happen. *)
Inductive event :=
| Spawn (argv : list str) (cwd : str)   (* a call of subprocess.check_output *)
| Exists (path : str)                   (* os.path.exists *)
| Read (path : str)                     (* open(path, 'rb').read() *)
| Write (path : str) (data : bytes)     (* open(path, 'wb').write(data) *)
| Chmod (path : str) (perm : N).        (* os.chmod *)

Record world := World { store : gmap str file; log : list event }.

Definition emit (e : event) (w : world) : world :=
  {| store := store w; log := log w ++ [e] |}.

(** Modelled from the spec: the module [lib.errors] is not among the
    sources. Its two classes are taken by the names under which boinc.py
    raises them, each carrying the one message it is constructed with
    (the spec's ConfigurationError and ConsistencyError are both raised as
    [InternalError], its ToolInvocationError and ToolProtocolError both as
    [BoincError]). The other constructors are the exceptions of the Python
    library that the calls made here can raise. *)
Inductive exn :=
| InternalError (msg : str)
| BoincError (msg : str)
| CalledProcessError (returncode : Z) (output : bytes)
| OSError
| UnicodeDecodeError
| UnicodeEncodeError
| ValueError.

(** The class of an exception, which is what an [except] clause of a
    caller can select on. *)
Inductive exn_class :=
| CInternalError | CBoincError | CCalledProcessError | COSError
| CUnicodeDecodeError | CUnicodeEncodeError | CValueError.

Definition class_of (e : exn) : exn_class :=
  match e with
  | InternalError _ => CInternalError
  | BoincError _ => CBoincError
  | CalledProcessError _ _ => CCalledProcessError
  | OSError => COSError
  | UnicodeDecodeError => CUnicodeDecodeError
  | UnicodeEncodeError => CUnicodeEncodeError
  | ValueError => CValueError
  end.

Definition message (e : exn) : option str :=
  match e with
  | InternalError m | BoincError m => Some m
  | _ => None
  end.

Inductive outcome (A : Type) :=
| Return (a : A)
| Raise (e : exn).
Arguments Return {A} a.
Arguments Raise {A} e.

(** A computation: from a world to an outcome and the world it leaves. *)
Definition M (A : Type) : Type := world -> outcome A * world.

Definition ret {A} (a : A) : M A := fun w => (Return a, w).

Definition raise {A} (e : exn) : M A := fun w => (Raise e, w).

Definition bind {A B} (m : M A) (k : A -> M B) : M B :=
  fun w =>
    match m w with
    | (Return a, w') => k a w'
    | (Raise e, w') => (Raise e, w')
    end.

(** [try: m except ...: handler]: [handler e] is [None] when no clause
    selects [e], which then propagates. *)
Definition try_except {A} (m : M A) (handler : exn -> option (M A)) : M A :=
  fun w =>
    match m w with
    | (Return a, w') => (Return a, w')
    | (Raise e, w') =>
        match handler e with
        | Some h => h w'
        | None => (Raise e, w')
        end
    end.

Definition from_option {A} (e : exn) (o : option A) : M A :=
  match o with
  | Some a => ret a
  | None => raise e
  end.

#[export] Instance M_ret : MRet M := @ret.
#[export] Instance M_bind : MBind M := fun A B k m => bind m k.

(** How a call of [subprocess.check_output] goes: the process ends with a
    return code and the captured output, or the executable cannot be
    started, or the arguments cannot be passed at all and no process is
    started. *)
Inductive proc_result :=
| Exited (returncode : Z) (output : bytes)
| NotStarted
| Refused (e : exn).

(** Passing a string to a process: it is encoded for the file system
    (UTF-8 with [surrogateescape], so a surrogate outside U+DC80..U+DCFF is
    a [UnicodeEncodeError]) and must then hold no NUL (a [ValueError]). *)
Definition fs_encodable (c : N) : bool :=
  (c <? 0xD800) || ((0xDC80 <=? c) && (c <=? 0xDCFF))
  || ((0xE000 <=? c) && (c <? 0x110000)).

Definition fs_error (s : str) : option exn :=
  if negb (forallb fs_encodable s) then Some UnicodeEncodeError
  else if existsb (N.eqb 0) s then Some ValueError
  else None.

(** The arguments are converted in order, then the working directory. *)
Fixpoint first_error (args : list str) : option exn :=
  match args with
  | [] => None
  | a :: rest =>
      match fs_error a with
      | Some e => Some e
      | None => first_error rest
      end
  end.

Definition arg_error (argv : list str) (cwd : str) : option exn :=
  match first_error argv with
  | Some e => Some e
  | None => fs_error cwd
  end.

(** What the functions take from their surroundings.
    - [exec argv cwd merged w] is the behaviour of the executable [argv]
      started in [cwd] when the world is [w]: its return code and captured
      output, or [None] when it cannot be started; [merged] says that
      standard error is captured together with standard output. A process
      leaves the store as it is.
    - [can_create path] says that [open(path, 'wb')] can create a file at
      [path]: the directory is there and writable, and [path] names no
      directory and is not empty.
    - [create_mode] is the mode a newly created file gets from the process
      umask.
    - [int_max_str_digits] is the interpreter's limit on integer string
      conversion, see [int_of_digits]. *)
Class Host := {
  BOINC_PROJECT_DIR : str;
  exec : list str -> str -> bool -> world -> option (Z * bytes);
  md5_hexdigest : bytes -> str;
  create_mode : N;
  can_create : str -> bool;
  int_max_str_digits : N;
}.

(** A call of a process: refused when an argument cannot be passed,
    otherwise as the executable behaves. *)
Definition run `{Host} (argv : list str) (cwd : str) (merged : bool) (w : world)
  : proc_result :=
  match arg_error argv cwd with
  | Some e => Refused e
  | None =>
      match exec argv cwd merged w with
      | Some (rc, out) => Exited rc out
      | None => NotStarted
      end
  end.

(** *** Library calls with effects *)

Section Effects.
Context `{Host}.

(** [subprocess.check_output(argv, cwd=cwd)], with [stderr=STDOUT] when
    [merged]. *)
Definition check_output (argv : list str) (cwd : str) (merged : bool) : M bytes :=
  fun w =>
    let w' := emit (Spawn argv cwd) w in
    match run argv cwd merged w with
    | Exited 0%Z out => (Return out, w')
    | Exited rc out => (Raise (CalledProcessError rc out), w')
    | NotStarted => (Raise OSError, w')
    | Refused e => (Raise e, w')
    end.

Definition path_exists (path : str) : M bool :=
  fun w =>
    (Return (match store w !! path with Some _ => true | None => false end),
     emit (Exists path) w).

Definition read_file (path : str) : M bytes :=
  fun w =>
    match store w !! path with
    | Some f => (Return (content f), emit (Read path) w)
    | None => (Raise OSError, emit (Read path) w)
    end.

(** [open(path, 'wb')] and the write: an existing file is truncated and
    keeps its mode; a new file is created where the host allows it, and
    otherwise the [open] raises and nothing is written. *)
Definition write_file (path : str) (data : bytes) : M unit :=
  fun w =>
    match store w !! path with
    | Some f =>
        (Return tt,
         {| store := <[path := File data (mode f)]> (store w);
            log := log w ++ [Write path data] |})
    | None =>
        if can_create path then
          (Return tt,
           {| store := <[path := File data create_mode]> (store w);
              log := log w ++ [Write path data] |})
        else (Raise OSError, w)
    end.

Definition chmod (path : str) (perm : N) : M unit :=
  fun w =>
    match store w !! path with
    | Some f =>
        (Return tt,
         {| store := <[path := File (content f) perm]> (store w);
            log := log w ++ [Chmod path perm] |})
    | None => (Raise OSError, emit (Chmod path perm) w)
    end.

(** ** boinc.py *)

(** The mode [0o755]. *)
Definition o755 : N := 7 * 64 + 5 * 8 + 5.

Definition clean_download_path (path : str) : str :=
  let '(_, _, relpath) := rpartition (lit "/download/") path in
  relpath.

Definition dir_hier_path (filename : str) : M str :=
  abspath ← check_output [lit "bin/dir_hier_path"; filename]
                          BOINC_PROJECT_DIR false;
  from_option UnicodeDecodeError (utf8_decode (strip abspath)).

Definition filename_to_download_path (filename : str) : M str :=
  abspath ← dir_hier_path filename;
  ret (clean_download_path abspath).

Definition _filename_for_contents (prefix : str) (contents : bytes) : str :=
  let file_hash := md5_hexdigest contents in
  prefix ++ lit "_" ++ file_hash.

Definition stage_file (prefix : str) (contents : bytes) : M str :=
  let filename := _filename_for_contents prefix contents in
  abspath ← dir_hier_path filename;
  there ← path_exists abspath;
  (if there : bool then
     existing ← read_file abspath;
     if bool_decide (existing <> contents) then
       raise (InternalError
                (lit "Attempted to stage " ++ filename
                 ++ lit " with differing contents"))
     else ret tt
   else
     write_file abspath contents;;
     chmod abspath o755);;
  ret abspath.

Definition get_filename (prefix : str) (hash : str) : M str :=
  dir_hier_path (prefix ++ lit "_" ++ hash).

(** The pattern [rb'created workunit; .*, ID ([0-9]+)']. *)
Definition workunit_re : list Re.node :=
  Re.chars "created workunit; "
  ++ [Re.Plain (Re.Star Re.Dot)]
  ++ Re.chars ", ID "
  ++ [Re.Group (Re.Plus (Re.Range "0" "9"))].

(** The loop over the output lines of [submit_job]; [orelse] is what
    follows the loop when no iteration returns. *)
Fixpoint for_lines (lines : list bytes) (orelse : M N) : M N :=
  match lines with
  | [] => orelse
  | line :: rest =>
      match Re.match_ workunit_re line with
      | Some groups =>
          from_option ValueError
            (int_of_digits int_max_str_digits (default [] (head groups)))
      | None => for_lines rest orelse
      end
  end.

Definition submit_job (appname cmdline : str)
    (seed_file : option str) (seed_contents : option bytes) : M N :=
  if truthy seed_file && truthy seed_contents then
    raise (InternalError
             (lit "Only one of seed_file and seed_contents can be specified"))
  else
    seed_file ←
      (if truthy seed_contents then
         stage_file (lit "input") (default [] seed_contents)
       else if negb (truthy seed_file) then
         raise (InternalError (lit "No seed specified"))
       else ret (default [] seed_file));
    cmd_contents ← from_option UnicodeEncodeError (utf8_encode cmdline);
    cmd_path ← stage_file (lit "cmdline") cmd_contents;
    let cmd_file := basename cmd_path in
    let create_work_args :=
      [lit "bin/create_work"; lit "--appname"; appname; lit "--verbose";
       seed_file; cmd_file] in
    result ←
      try_except
        (check_output create_work_args BOINC_PROJECT_DIR true)
        (fun e =>
           match e with
           | CalledProcessError _ output =>
               Some (raise (BoincError
                              (lit "create_work returned error: "
                               ++ bytes_repr output)))
           | _ => None
           end);
    for_lines (splitlines result)
      (raise (BoincError
                (lit "Could not find ID in create_work output: "
                 ++ bytes_repr result))).

End Effects.

End Boinc.

Import Boinc.

(** ** Notions used in the statements *)

(** The placement executable is a function of the file name it is given:
    it ignores the state of the world it is started in. *)
Definition oracle_deterministic `{Host} : Prop :=
  forall filename w1 w2,
    run [lit "bin/dir_hier_path"; filename] BOINC_PROJECT_DIR false w1
    = run [lit "bin/dir_hier_path"; filename] BOINC_PROJECT_DIR false w2.

(** The world after a sequence of [stage_file] calls, whatever each of
    them returns or raises. *)
Fixpoint after_stagings `{Host} (calls : list (str * bytes)) (w : world) : world :=
  match calls with
  | [] => w
  | (prefix, contents) :: rest =>
      after_stagings rest (snd (stage_file prefix contents w))
  end.

(** [sep] occurs in [s]. *)
Definition occurs_in (sep s : str) : Prop :=
  exists before after, s = before ++ sep ++ after.

(** The argument vector [submit_job] builds for [bin/create_work]. *)
Definition create_work_argv (appname seed_file cmd_file : str) : list str :=
  [lit "bin/create_work"; lit "--appname"; appname; lit "--verbose";
   seed_file; cmd_file].

(** [submit_job], started in [w], has passed the validation of the seed
    arguments and staged what it has to: the seed is at [seed], the command
    line at [cmd_path], and the world is [w2]; the next step is the call of
    [bin/create_work]. *)
Definition staged_for_submit `{Host} (cmdline : str)
    (seed_file : option str) (seed_contents : option bytes)
    (w : world) (seed cmd_path : str) (w2 : world) : Prop :=
  (truthy seed_file && truthy seed_contents = false)
  /\ exists w1 cmd_contents,
      (if truthy seed_contents
       then stage_file (lit "input") (default [] seed_contents) w = (Return seed, w1)
       else truthy seed_file = true /\ seed = default [] seed_file /\ w1 = w)
      /\ utf8_encode cmdline = Some cmd_contents
      /\ stage_file (lit "cmdline") cmd_contents w1 = (Return cmd_path, w2).

(** A line of the form [created workunit; <text>, ID <digit>...]: the
    fixed head, any text without a newline, the separator, and at least
    one decimal digit; anything may follow. *)
Definition workunit_line (line : bytes) : Prop :=
  exists text d rest,
    line = blit "created workunit; " ++ text ++ blit ", ID " ++ d :: rest
    /\ (x0a ∉ text) /\ is_digit d = true.

(** The number a string of decimal digits denotes. *)
Fixpoint decimal (ds : bytes) : N :=
  match ds with
  | [] => 0
  | d :: rest => digit_val d * 10 ^ N.of_nat (length rest) + decimal rest
  end.

(** The last node of [workunit_re], and what follows its [.*]. *)
Definition digits_node : list Re.node := [Re.Group (Re.Plus (Re.Range "0" "9"))].

Definition tail_nodes : list Re.node :=
  map (fun b => Re.Plain (Re.One (Re.Chr b))) (blit ", ID ") ++ digits_node.

(** The last step of [submit_job], from the world [w2] in which the seed
    and the command line are staged: the call of [bin/create_work] and the
    reading of its output. *)
Definition create_work_outcome `{Host} (appname seed cmd_path : str) (w2 : world)
  : outcome N * world :=
  let argv := create_work_argv appname seed (basename cmd_path) in
  let w3 := emit (Spawn argv BOINC_PROJECT_DIR) w2 in
  match run argv BOINC_PROJECT_DIR true w2 with
  | Exited 0%Z out =>
      for_lines (splitlines out)
        (raise (BoincError (lit "Could not find ID in create_work output: "
                            ++ bytes_repr out))) w3
  | Exited _ out =>
      (Raise (BoincError (lit "create_work returned error: " ++ bytes_repr out)), w3)
  | NotStarted => (Raise OSError, w3)
  | Refused e => (Raise e, w3)
  end.

(** Reading back one byte written by [repr_byte]: the byte and what
    follows it in the string. *)
Definition unhex (h : N) : N := if h <? 58 then h - 48 else h - 87.

Definition unrepr_byte (quote : N) (s : str) : option (byte * str) :=
  match s with
  | [] => None
  | 92 :: c :: rest =>
      if (c =? quote) || (c =? 92) then Some (byte_of_N c, rest)
      else if c =? 116 then Some (x09, rest)
      else if c =? 110 then Some (x0a, rest)
      else if c =? 114 then Some (x0d, rest)
      else match rest with
           | h :: l :: rest' => Some (byte_of_N (unhex h * 16 + unhex l), rest')
           | _ => None
           end
  | c :: rest => Some (byte_of_N c, rest)
  end.

(** A byte that [repr] writes as itself between single quotes: printable
    ASCII other than the single quote and the backslash. *)
Definition plain_byte (b : byte) : bool :=
  let c := Byte.to_N b in
  (32 <=? c) && (c <? 127) && negb (c =? 39) && negb (c =? 92).

(** A line of tool output with the line end that closes it: the line holds
    neither LF nor CR, and the end is LF or CR LF. *)
Definition closed_line (le : bytes * bytes) : Prop :=
  (x0a ∉ le.1) /\ (x0d ∉ le.1) /\ (le.2 = [x0a] \/ le.2 = [x0d; x0a]).

(** The output made of the given lines, each followed by its line end. *)
Definition join_lines (lines : list (bytes * bytes)) : bytes :=
  concat (map (fun le => le.1 ++ le.2) lines).

(** A value that [str.encode('utf8')] refuses: a surrogate, or no code
    point at all. *)
Definition unencodable (c : N) : Prop :=
  (0xD800 <= c /\ c <= 0xDFFF) \/ 0x110000 <= c.


(** An effect that changes the store. *)
Definition mutates (ev : event) : bool :=
  match ev with
  | Write _ _ | Chmod _ _ => true
  | _ => false
  end.

(** *** A concrete host for the closed examples *)

Module Fixture.

(** A stand-in digest: the sum of the bytes modulo 256, as two hexadecimal
    digits. Distinct contents with equal sums collide. *)
Definition stub_hexdigest (s : bytes) : str :=
  let n := (fold_left (fun a b => a + Byte.to_N b) s 0) mod 256 in
  [hexdigit (n / 16); hexdigit (n mod 16)].

(** [bin/dir_hier_path] ends as [placement] says for the file name;
    [bin/create_work] ends as [create_work] says. *)
Definition stub_exec (placement : str -> option (Z * bytes)) (create_work : proc_result)
    (argv : list str) (cwd : str) (merged : bool) (w : world) : option (Z * bytes) :=
  match argv with
  | [bin; filename] =>
      if bool_decide (bin = lit "bin/dir_hier_path") then placement filename
      else None
  | bin :: _ =>
      if bool_decide (bin = lit "bin/create_work") then
        match create_work with
        | Exited rc out => Some (rc, out)
        | _ => None
        end
      else None
  | [] => None
  end.

(** The placement executable prints the path of the file under the
    fan-out directory [fanout] of the download tree, and a newline. *)
Definition place_under (fanout : str) (filename : str) : option (Z * bytes) :=
  match utf8_encode (lit "/srv/boinc/download/" ++ fanout ++ [47] ++ filename ++ [10]) with
  | Some out => Some (0%Z, out)
  | None => Some (1%Z, [])
  end.

(** The download tree has the one fan-out directory [3f]: a file can be
    created under a non-empty name directly in it, and nowhere else. *)
Definition stub_can_create (path : str) : bool :=
  match rsplit_at [47] path with
  | Some (dir, name) =>
      bool_decide (dir = lit "/srv/boinc/download/3f")
      && match name with [] => false | _ => true end
  | None => false
  end.

Definition stub_host (create_work : proc_result) : Host :=
  {| BOINC_PROJECT_DIR := lit "/srv/boinc";
     exec := stub_exec (place_under (lit "3f")) create_work;
     md5_hexdigest := stub_hexdigest;
     create_mode := 420;
     can_create := stub_can_create;
     int_max_str_digits := 4300 |}.



(** A placement executable that echoes the bare name; files are created
    in the working directory. *)
Definition echo_host : Host :=
  {| BOINC_PROJECT_DIR := lit "/srv/boinc";
     exec := stub_exec (fun filename =>
                          match utf8_encode filename with
                          | Some out => Some (0%Z, out)
                          | None => Some (1%Z, [])
                          end) NotStarted;
     md5_hexdigest := stub_hexdigest;
     create_mode := 420;
     can_create := fun path =>
                     match path with
                     | [] => false
                     | _ => negb (existsb (N.eqb 47) path)
                     end;
     int_max_str_digits := 4300 |}.

Definition empty_world : world := {| store := ∅; log := [] |}.

(** An identifier of 4301 digits, one more than the interpreter converts
    by default. *)
Definition long_id : bytes := repeat ("1"%byte) 4301.

End Fixture.

(** * Properties *)

(** ** Running the monad *)

Lemma bind_run {A B} (m : M A) (k : A -> M B) w :
  (m ≫= k) w = match m w with
               | (Return a, w') => k a w'
               | (Raise e, w') => (Raise e, w')
               end.
Proof. reflexivity. Qed.

(** ** Arguments that cannot be passed *)

Lemma fs_error_cases s e :
  fs_error s = Some e -> e = UnicodeEncodeError \/ e = ValueError.
Proof.
  unfold fs_error. destruct (negb (forallb fs_encodable s)); [intros [= <-]; auto|].
  destruct (existsb (N.eqb 0) s); [intros [= <-]; auto | discriminate].
Qed.

Lemma first_error_cases args e :
  first_error args = Some e ->
  exists a, a ∈ args /\ fs_error a = Some e.
Proof.
  induction args as [|a args IH]; simpl; [discriminate|].
  destruct (fs_error a) as [e0|] eqn:Ha.
  - intros [= <-]. exists a. split; [left | exact Ha].
  - intros (b & Hin & Hb)%IH. exists b. split; [right; exact Hin | exact Hb].
Qed.

Lemma arg_error_cases argv cwd e :
  arg_error argv cwd = Some e -> e = UnicodeEncodeError \/ e = ValueError.
Proof.
  unfold arg_error. destruct (first_error argv) as [e0|] eqn:Hf.
  - intros [= <-]. apply first_error_cases in Hf as (a & _ & Ha).
    apply (fs_error_cases a e0 Ha).
  - apply fs_error_cases.
Qed.

Section Stage.
Context `{Host}.

(** A call is refused exactly when an argument cannot be passed. *)
Lemma run_Refused argv cwd merged w e :
  run argv cwd merged w = Refused e <-> arg_error argv cwd = Some e.
Proof.
  unfold run. destruct (arg_error argv cwd) as [e0|].
  - split; intros [= <-]; reflexivity.
  - destruct (exec argv cwd merged w) as [[rc out]|]; split; discriminate.
Qed.

Lemma dir_hier_path_world filename w r w1 :
  dir_hier_path filename w = (r, w1) ->
  w1 = emit (Spawn [lit "bin/dir_hier_path"; filename] BOINC_PROJECT_DIR) w.
Proof.
  unfold dir_hier_path. rewrite bind_run. unfold check_output.
  destruct (run _ _ _ w) as [[|rc|rc] out| |e0]; simpl.
  - destruct (utf8_decode (strip out)); simpl; unfold ret, raise;
      intros [= _ <-]; reflexivity.
  - intros [= _ <-]; reflexivity.
  - intros [= _ <-]; reflexivity.
  - intros [= _ <-]; reflexivity.
  - intros [= _ <-]; reflexivity.
Qed.

Lemma dir_hier_path_store filename w r w1 :
  dir_hier_path filename w = (r, w1) -> store w1 = store w.
Proof. intros ->%dir_hier_path_world. reflexivity. Qed.

Lemma dir_hier_path_deterministic filename w w' :
  oracle_deterministic ->
  fst (dir_hier_path filename w') = fst (dir_hier_path filename w).
Proof.
  intros Hdet. unfold dir_hier_path. rewrite !bind_run. unfold check_output.
  rewrite (Hdet filename w' w).
  destruct (run _ _ _ w) as [[|rc|rc] out| |e0]; simpl; try reflexivity.
  destruct (utf8_decode (strip out)); reflexivity.
Qed.

(** [stage_file] with the monad unfolded: one case per path through the
    body. *)
Lemma stage_file_run prefix contents w :
  stage_file prefix contents w =
  let filename := _filename_for_contents prefix contents in
  match dir_hier_path filename w with
  | (Raise e, w1) => (Raise e, w1)
  | (Return path, w1) =>
      match store w1 !! path with
      | Some f =>
          (if bool_decide (content f <> contents)
           then Raise (InternalError (lit "Attempted to stage " ++ filename
                                      ++ lit " with differing contents"))
           else Return path,
           {| store := store w1; log := log w1 ++ [Exists path; Read path] |})
      | None =>
          if can_create path then
            (Return path,
             {| store := <[path := File contents o755]> (store w1);
                log := log w1 ++ [Exists path; Write path contents;
                                  Chmod path o755] |})
          else
            (Raise OSError,
             {| store := store w1; log := log w1 ++ [Exists path] |})
      end
  end.
Proof.
  unfold stage_file. cbv zeta. rewrite bind_run.
  destruct (dir_hier_path _ w) as [[path|e] w1]; [|reflexivity].
  rewrite bind_run. unfold path_exists at 1. cbv beta iota.
  destruct (store w1 !! path) as [f|] eqn:Hf.
  - rewrite !bind_run. unfold read_file. simpl. rewrite Hf.
    unfold emit; simpl. rewrite <- app_assoc. simpl.
    destruct (bool_decide (content f <> contents)); reflexivity.
  - rewrite !bind_run. unfold write_file, chmod. simpl. rewrite Hf.
    destruct (can_create path); [|reflexivity]. simpl.
    rewrite lookup_insert_eq. simpl. rewrite insert_insert_eq.
    unfold ret. rewrite <- !app_assoc. reflexivity.
Qed.

(** A single call either leaves the store as it is, or returns a path
    that was free and now holds the contents with mode 0755. *)
Lemma stage_file_store prefix contents w r w' :
  stage_file prefix contents w = (r, w') ->
  store w' = store w
  \/ exists path, r = Return path /\ store w !! path = None
                  /\ store w' = <[path := File contents o755]> (store w).
Proof.
  rewrite stage_file_run. cbv zeta.
  destruct (dir_hier_path _ w) as [[path|e] w1] eqn:Hd.
  - apply dir_hier_path_store in Hd. rewrite Hd.
    destruct (store w !! path) as [f|] eqn:Hf.
    + intros [= _ <-]. left. reflexivity.
    + destruct (can_create path).
      * intros [= <- <-]. right. exists path. simpl. auto.
      * intros [= _ <-]. left. reflexivity.
  - apply dir_hier_path_store in Hd. intros [= _ <-]. left. exact Hd.
Qed.

(** A successful call leaves the contents at the path it returns. *)
Lemma stage_file_placed prefix contents w path w' :
  stage_file prefix contents w = (Return path, w') ->
  exists f, store w' !! path = Some f /\ content f = contents.
Proof.
  rewrite stage_file_run. cbv zeta.
  destruct (dir_hier_path _ w) as [[p|e] w1] eqn:Hd; [|discriminate].
  destruct (store w1 !! p) as [f|] eqn:Hf.
  - destruct (bool_decide (content f <> contents)) eqn:Hc; [discriminate|].
    intros [= <- <-]. exists f. simpl. split; [exact Hf|].
    apply bool_decide_eq_false in Hc.
    destruct (decide (content f = contents)); [assumption|contradiction].
  - destruct (can_create p); [|discriminate].
    intros [= <- <-]. exists (File contents o755). simpl.
    rewrite lookup_insert_eq. auto.
Qed.

Lemma after_stagings_keeps calls : forall w path f,
  store w !! path = Some f ->
  store (after_stagings calls w) !! path = Some f.
Proof.
  induction calls as [|[prefix contents] calls IH]; intros w path f Hf; [exact Hf|].
  simpl. apply IH.
  destruct (stage_file prefix contents w) as [r w'] eqn:Hs. simpl.
  destruct (stage_file_store _ _ _ _ _ Hs) as [-> | (p & _ & Hfree & ->)]; [exact Hf|].
  rewrite lookup_insert_ne; [exact Hf|]. intros ->. congruence.
Qed.

End Stage.

Section StageFacts.
Context `{Host}.

Lemma stage_file_resolved prefix contents w path w' :
  stage_file prefix contents w = (Return path, w') ->
  fst (dir_hier_path (_filename_for_contents prefix contents) w) = Return path.
Proof.
  rewrite stage_file_run. cbv zeta.
  destruct (dir_hier_path _ w) as [[p|e] w1]; [|discriminate].
  destruct (store w1 !! p) as [f|].
  - destruct (bool_decide _); [discriminate|]. intros [= <- _]. reflexivity.
  - destruct (can_create p); [|discriminate]. intros [= <- _]. reflexivity.
Qed.

(** A call that finds the contents already in place. *)
Lemma stage_file_present prefix contents w0 w path f :
  oracle_deterministic ->
  fst (dir_hier_path (_filename_for_contents prefix contents) w0) = Return path ->
  store w !! path = Some f -> content f = contents ->
  stage_file prefix contents w =
    (Return path,
     {| store := store w;
        log := log w
               ++ [Spawn [lit "bin/dir_hier_path";
                          _filename_for_contents prefix contents]
                         BOINC_PROJECT_DIR;
                   Exists path; Read path] |}).
Proof.
  intros Hdet Hres Hf Hc. rewrite stage_file_run. cbv zeta.
  destruct (dir_hier_path (_filename_for_contents prefix contents) w)
    as [r w2] eqn:Hd.
  pose proof (dir_hier_path_deterministic (_filename_for_contents prefix contents)
                w0 w Hdet) as Hsame.
  rewrite Hd, Hres in Hsame. simpl in Hsame. subst r.
  apply dir_hier_path_world in Hd. subst w2. simpl. rewrite Hf.
  rewrite bool_decide_eq_false_2 by (intros Hne; apply Hne; exact Hc).
  rewrite <- app_assoc. reflexivity.
Qed.

(** Two contents with one fingerprint: the second staging is refused. *)
Lemma stage_file_collision prefix a b w path w1 :
  oracle_deterministic ->
  md5_hexdigest a = md5_hexdigest b -> a <> b ->
  stage_file prefix a w = (Return path, w1) ->
  exists w2,
    stage_file prefix b w1
    = (Raise (InternalError
                (lit "Attempted to stage " ++ _filename_for_contents prefix b
                 ++ lit " with differing contents")), w2)
    /\ store w2 = store w1.
Proof.
  intros Hdet Hhash Hne Hfirst.
  pose proof (stage_file_resolved _ _ _ _ _ Hfirst) as Hres.
  destruct (stage_file_placed _ _ _ _ _ Hfirst) as (f & Hf & Hc).
  assert (_filename_for_contents prefix b = _filename_for_contents prefix a) as Hname
    by (unfold _filename_for_contents; rewrite Hhash; reflexivity).
  rewrite stage_file_run. cbv zeta. rewrite Hname.
  destruct (dir_hier_path (_filename_for_contents prefix a) w1) as [r w2] eqn:Hd.
  pose proof (dir_hier_path_deterministic (_filename_for_contents prefix a)
                w w1 Hdet) as Hsame.
  rewrite Hd, Hres in Hsame. simpl in Hsame. subst r.
  apply dir_hier_path_store in Hd as Hst. rewrite Hst, Hf.
  rewrite bool_decide_eq_true_2 by congruence.
  eexists. split; reflexivity.
Qed.

End StageFacts.

(** ** Staging *)




(** C1. With a placement executable that is a function of the file name,
    once [stage_file prefix contents] has returned [path], the same call
    in the world it left returns [path] again and leaves the store as it
    is: it resolves the name, tests the path and reads the file, and it
    writes nothing and changes no mode. The same holds after any further
    [stage_file] calls. *)
Theorem stage_file_idempotent `{Host} prefix contents w path w1 :
  oracle_deterministic ->
  stage_file prefix contents w = (Return path, w1) ->
  stage_file prefix contents w1 =
    (Return path,
     {| store := store w1;
        log := log w1
               ++ [Spawn [lit "bin/dir_hier_path";
                          _filename_for_contents prefix contents]
                         BOINC_PROJECT_DIR;
                   Exists path; Read path] |})
  /\ forall calls,
       let w' := after_stagings calls w1 in
       stage_file prefix contents w' =
         (Return path,
          {| store := store w';
             log := log w'
                    ++ [Spawn [lit "bin/dir_hier_path";
                               _filename_for_contents prefix contents]
                              BOINC_PROJECT_DIR;
                        Exists path; Read path] |}).
Proof.
  intros Hdet Hfirst.
  pose proof (stage_file_resolved _ _ _ _ _ Hfirst) as Hres.
  destruct (stage_file_placed _ _ _ _ _ Hfirst) as (f & Hf & Hc).
  split.
  - apply (stage_file_present prefix contents w w1 path f Hdet Hres Hf Hc).
  - intros calls w'.
    apply (stage_file_present prefix contents w w' path f Hdet Hres); [|exact Hc].
    apply after_stagings_keeps. exact Hf.
Qed.

Lemma stage_file_idempotent_witness :
  let host := Fixture.stub_host NotStarted in
  let path := lit "/srv/boinc/download/3f/input_a1" in
  let w1 := snd (stage_file (H := host) (lit "input") (blit "seed") Fixture.empty_world) in
  stage_file (H := host) (lit "input") (blit "seed") w1
  = (Return path,
     {| store := store w1;
        log := log w1 ++ [Spawn [lit "bin/dir_hier_path"; lit "input_a1"] (lit "/srv/boinc");
                          Exists path; Read path] |}).
Proof.
  intros host path w1.
  assert (oracle_deterministic (H := host)) as Hdet
    by (intros filename wa wb; reflexivity).
  assert (stage_file (H := host) (lit "input") (blit "seed") Fixture.empty_world
          = (Return path, w1)) as Hfirst
    by (vm_compute; reflexivity).
  exact (proj1 (stage_file_idempotent (H := host) (lit "input") (blit "seed")
                  Fixture.empty_world path w1 Hdet Hfirst)).
Defined.

(** C2. When the placement executable resolves the derived file name to
    [path] and the store holds a file there whose bytes differ from
    [contents], [stage_file] raises [InternalError] (the class the code
    uses for the spec's ConsistencyError) with the message
    "Attempted to stage <filename> with differing contents", and the
    store, the existing file included, is what it was: the call has only
    tested the path and read the file. *)
Theorem stage_file_differing `{Host} prefix contents w path w1 f :
  dir_hier_path (_filename_for_contents prefix contents) w = (Return path, w1) ->
  store w !! path = Some f ->
  content f <> contents ->
  stage_file prefix contents w =
    (Raise (InternalError
              (lit "Attempted to stage " ++ _filename_for_contents prefix contents
               ++ lit " with differing contents")),
     {| store := store w; log := log w1 ++ [Exists path; Read path] |}).
Proof.
  intros Hd Hf Hne. rewrite stage_file_run. cbv zeta. rewrite Hd.
  rewrite (dir_hier_path_store _ _ _ _ Hd), Hf.
  rewrite bool_decide_eq_true_2 by exact Hne. reflexivity.
Qed.

(** The stand-in digest maps [b"ab"] and [b"ba"] to the same fingerprint:
    staging the second after the first is refused. *)
Lemma stage_file_differing_witness :
  let host := Fixture.stub_host NotStarted in
  let w1 := snd (stage_file (H := host) (lit "input") (blit "ab") Fixture.empty_world) in
  store w1 !! lit "/srv/boinc/download/3f/input_c3" = Some (File (blit "ab") 493)
  /\ stage_file (H := host) (lit "input") (blit "ba") w1
     = (Raise (InternalError (lit "Attempted to stage input_c3 with differing contents")),
        {| store := store w1;
           log := log w1 ++ [Spawn [lit "bin/dir_hier_path"; lit "input_c3"] (lit "/srv/boinc");
                             Exists (lit "/srv/boinc/download/3f/input_c3");
                             Read (lit "/srv/boinc/download/3f/input_c3")] |}).
Proof.
  intros host w1. split; [vm_compute; reflexivity|].
  rewrite (stage_file_differing (H := host) (lit "input") (blit "ba") w1
             (lit "/srv/boinc/download/3f/input_c3")
             (emit (Spawn [lit "bin/dir_hier_path"; lit "input_c3"] (lit "/srv/boinc")) w1)
             (File (blit "ab") 493)).
  - vm_compute. reflexivity.
  - vm_compute. reflexivity.
  - vm_compute. reflexivity.
  - vm_compute. discriminate.
Defined.

(** C8. A call of [stage_file] does one of three things to the store:
    it returns a path that held no file and now holds the contents (and
    nothing else changes), or it returns and leaves the store as it was,
    or it raises and leaves the store as it was. Hence a file that is in
    the store keeps its bytes (and its mode) through any sequence of
    [stage_file] calls. *)
Theorem stage_file_write_once `{Host} prefix contents w :
  (let '(r, w') := stage_file prefix contents w in
   (exists path, r = Return path /\ store w !! path = None
                 /\ store w' = <[path := File contents o755]> (store w))
   \/ (exists path, r = Return path /\ store w' = store w)
   \/ (exists e, r = Raise e /\ store w' = store w))
  /\ (forall calls path f,
        store w !! path = Some f ->
        store (after_stagings calls w) !! path = Some f).
Proof.
  split.
  - destruct (stage_file prefix contents w) as [r w'] eqn:Hs.
    destruct (stage_file_store _ _ _ _ _ Hs) as [Hsame | (p & -> & Hfree & Hnew)].
    + destruct r as [p|e]; [right; left; eauto | right; right; eauto].
    + left. eauto.
  - intros calls path f Hf. apply after_stagings_keeps. exact Hf.
Qed.

Lemma stage_file_write_once_witness :
  let host := Fixture.stub_host NotStarted in
  let w := snd (stage_file (H := host) (lit "input") (blit "ab") Fixture.empty_world) in
  store (after_stagings (H := host)
           [(lit "input", blit "ba"); (lit "input", blit "ab"); (lit "cmdline", blit "ab")] w)
    !! lit "/srv/boinc/download/3f/input_c3" = Some (File (blit "ab") 493).
Proof.
  intros host w.
  apply (proj2 (stage_file_write_once (H := host) (lit "input") (blit "ba") w)).
  vm_compute. reflexivity.
Defined.

(** ** Splitting at the last occurrence *)

Section Rpartition.

Lemma startswith_spec sep : forall s,
  startswith sep s = true <-> exists after, s = sep ++ after.
Proof.
  induction sep as [|a sep IH]; intros s; simpl.
  - split; [intros _; exists s; reflexivity | reflexivity].
  - destruct s as [|c s].
    + split; [discriminate | intros [after Heq]; discriminate].
    + rewrite andb_true_iff, N.eqb_eq, IH. split.
      * intros [-> [after ->]]. exists after. reflexivity.
      * intros [after [= -> ->]]. split; [reflexivity | exists after; reflexivity].
Qed.

Lemma rsplit_at_Some sep : forall s hd tl,
  rsplit_at sep s = Some (hd, tl) -> s = hd ++ sep ++ tl.
Proof.
  induction s as [|c s IH]; intros hd tl; simpl; [discriminate|].
  destruct (rsplit_at sep s) as [[hd' tl']|].
  - intros [= <- <-]. rewrite (IH hd' tl' eq_refl) at 1. reflexivity.
  - destruct (startswith sep (c :: s)) eqn:Hsw; [|discriminate].
    intros [= <- <-]. apply startswith_spec in Hsw as [after Heq].
    rewrite Heq at 2. rewrite drop_app_length. simpl. exact Heq.
Qed.

Variables (c0 : N) (sep0 : str).
Let sep : str := c0 :: sep0.

Lemma rsplit_at_None : forall s,
  rsplit_at sep s = None <-> ~ occurs_in sep s.
Proof.
  induction s as [|c s IH].
  - simpl. split; [|reflexivity]. intros _ (before & after & Heq).
    destruct before; discriminate.
  - cbn [rsplit_at]. split.
    + destruct (rsplit_at sep s) as [[hd tl]|]; [discriminate|].
      destruct (startswith sep (c :: s)) eqn:Hsw; [discriminate|]. intros _.
      intros (before & after & Heq). destruct before as [|b before].
      * assert (startswith sep (c :: s) = true) as Ht
          by (apply startswith_spec; exists after; exact Heq).
        congruence.
      * simpl in Heq. injection Heq as _ Heq.
        apply (proj1 IH eq_refl). exists before, after. exact Heq.
    + intros Hno. destruct (rsplit_at sep s) as [[hd tl]|] eqn:Hr.
      * exfalso. apply Hno. apply rsplit_at_Some in Hr.
        exists (c :: hd), tl. rewrite Hr. reflexivity.
      * destruct (startswith sep (c :: s)) eqn:Hsw; [|reflexivity].
        exfalso. apply Hno. apply startswith_spec in Hsw as [after Heq].
        exists [], after. exact Heq.
Qed.

(** The occurrence chosen is the last one: the separator does not start
    again at any later position. *)
Lemma rsplit_at_last : forall s hd tl,
  rsplit_at sep s = Some (hd, tl) -> ~ occurs_in sep (sep0 ++ tl).
Proof.
  induction s as [|c s IH]; intros hd tl; cbn [rsplit_at]; [discriminate|].
  destruct (rsplit_at sep s) as [[hd' tl']|] eqn:Hr.
  - intros [= <- <-]. apply (IH hd' tl' eq_refl).
  - destruct (startswith sep (c :: s)) eqn:Hsw; [|discriminate].
    intros [= <- <-]. apply startswith_spec in Hsw as [after Heq].
    injection Heq as _ Heq. rewrite Heq at 1. rewrite drop_app_length.
    rewrite <- Heq. apply rsplit_at_None. exact Hr.
Qed.

Lemma rsplit_at_app before after :
  ~ occurs_in sep (sep0 ++ after) ->
  rsplit_at sep (before ++ sep ++ after) = Some (before, after).
Proof.
  intros Hlast. induction before as [|b before IH].
  - change ([] ++ sep ++ after) with (c0 :: sep0 ++ after).
    cbn [rsplit_at]. rewrite (proj2 (rsplit_at_None _) Hlast).
    replace (startswith sep (c0 :: sep0 ++ after)) with true
      by (symmetry; apply startswith_spec; exists after; reflexivity).
    change (c0 :: sep0 ++ after) with (sep ++ after).
    rewrite drop_app_length. reflexivity.
  - change ((b :: before) ++ sep ++ after) with (b :: (before ++ sep ++ after)).
    cbn [rsplit_at]. rewrite IH. reflexivity.
Qed.

End Rpartition.

(** ** Paths *)

(** C7. [clean_download_path] returns what follows the marker
    [/download/]: for a path in which the marker occurs, the path is some
    head, the marker and the result, and that occurrence is the last one
    (the marker starts at no later position); so a path made of a head,
    the marker and a remainder, with no later start of the marker, gives
    the remainder. A path in which the marker does not occur is returned
    as it is. *)
Theorem clean_download_path_spec (path : str) :
  (~ occurs_in (lit "/download/") path -> clean_download_path path = path)
  /\ (occurs_in (lit "/download/") path ->
      exists before,
        path = before ++ lit "/download/" ++ clean_download_path path
        /\ ~ occurs_in (lit "/download/") (lit "download/" ++ clean_download_path path))
  /\ (forall before after,
        path = before ++ lit "/download/" ++ after ->
        ~ occurs_in (lit "/download/") (lit "download/" ++ after) ->
        clean_download_path path = after).
Proof.
  unfold clean_download_path, rpartition.
  change (lit "/download/") with (47 :: lit "download/").
  split; [|split].
  - intros Hno. apply rsplit_at_None in Hno. rewrite Hno. reflexivity.
  - intros Hocc.
    destruct (rsplit_at (47 :: lit "download/") path) as [[hd tl]|] eqn:Hr.
    + exists hd. split.
      * apply rsplit_at_Some in Hr. exact Hr.
      * apply rsplit_at_last in Hr. exact Hr.
    + apply rsplit_at_None in Hr. contradiction.
  - intros before after -> Hlast.
    rewrite (rsplit_at_app _ _ before after Hlast). reflexivity.
Qed.

Lemma clean_download_path_spec_witness :
  clean_download_path (lit "/srv/boinc/download/3f/input_a1") = lit "3f/input_a1"
  /\ clean_download_path (lit "3f/input_a1") = lit "3f/input_a1".
Proof.
  split.
  - apply (proj2 (proj2 (clean_download_path_spec (lit "/srv/boinc/download/3f/input_a1")))
             (lit "/srv/boinc")).
    + reflexivity.
    + apply (rsplit_at_None 47 (lit "download/")). reflexivity.
  - apply (proj1 (clean_download_path_spec (lit "3f/input_a1"))).
    apply (rsplit_at_None 47 (lit "download/")). reflexivity.
Defined.

(** C6, as stated, fails: [get_filename] does not return the file name
    that [stage_file] builds but the location to which the placement
    executable resolves it, and it is not pure, since it starts that
    executable. Here the name is [input_a1], the result is the absolute
    path of the file in the download tree, and the log has gained the
    spawn. *)
Lemma get_filename_is_a_path :
  let host := Fixture.stub_host NotStarted in
  get_filename (H := host) (lit "input") (md5_hexdigest (blit "seed")) Fixture.empty_world
  = (Return (lit "/srv/boinc/download/3f/input_a1"),
     {| store := ∅;
        log := [Spawn [lit "bin/dir_hier_path"; lit "input_a1"] (lit "/srv/boinc")] |})
  /\ _filename_for_contents (H := host) (lit "input") (blit "seed") = lit "input_a1"
  /\ fst (get_filename (H := host) (lit "input") (md5_hexdigest (blit "seed"))
            Fixture.empty_world)
     <> Return (_filename_for_contents (H := host) (lit "input") (blit "seed"))
  /\ snd (get_filename (H := host) (lit "input") (md5_hexdigest (blit "seed"))
            Fixture.empty_world)
     <> Fixture.empty_world.
Proof.
  intros host. repeat split.
  - vm_compute. discriminate.
  - vm_compute. discriminate.
Qed.

(** C6, amended. [get_filename prefix (md5_hexdigest contents)] is the
    resolution, by the placement executable, of the very name
    [prefix ++ "_" ++ digest] that [stage_file prefix contents] builds: it
    calls that executable once and touches no file, and with a
    deterministic executable it returns the path that a successful
    [stage_file prefix contents] returns. It returns the bare name only
    where the executable prints the name it was given. *)
Theorem get_filename_resolves `{Host} prefix contents w :
  _filename_for_contents prefix contents = prefix ++ lit "_" ++ md5_hexdigest contents
  /\ get_filename prefix (md5_hexdigest contents) w
     = dir_hier_path (_filename_for_contents prefix contents) w
  /\ snd (get_filename prefix (md5_hexdigest contents) w)
     = emit (Spawn [lit "bin/dir_hier_path"; _filename_for_contents prefix contents]
                   BOINC_PROJECT_DIR) w
  /\ (oracle_deterministic ->
      forall w0 path w1,
        stage_file prefix contents w0 = (Return path, w1) ->
        fst (get_filename prefix (md5_hexdigest contents) w) = Return path).
Proof.
  split; [reflexivity|]. split; [reflexivity|]. split.
  - unfold get_filename.
    destruct (dir_hier_path (prefix ++ lit "_" ++ md5_hexdigest contents) w)
      as [r w'] eqn:Hd.
    apply dir_hier_path_world in Hd. exact Hd.
  - intros Hdet w0 path w1 Hs.
    apply stage_file_resolved in Hs. rewrite <- Hs.
    apply (dir_hier_path_deterministic _ w0 w Hdet).
Qed.

Lemma get_filename_resolves_witness :
  let host := Fixture.stub_host NotStarted in
  let w1 := snd (stage_file (H := host) (lit "input") (blit "seed") Fixture.empty_world) in
  fst (get_filename (H := host) (lit "input") (md5_hexdigest (blit "seed")) w1)
  = Return (lit "/srv/boinc/download/3f/input_a1").
Proof.
  intros host w1.
  apply (proj2 (proj2 (proj2
           (get_filename_resolves (H := host) (lit "input") (blit "seed") w1)))
           (fun filename wa wb => eq_refl) Fixture.empty_world _ w1).
  vm_compute. reflexivity.
Defined.

(** With a placement executable that prints the name it is given, and
    only then, the result is the bare name. *)
Example get_filename_echo :
  fst (get_filename (H := Fixture.echo_host) (lit "input") (lit "a1") Fixture.empty_world)
  = Return (lit "input_a1").
Proof. reflexivity. Qed.

(** ** The matcher *)

Section Star.
Context {R : Type} (c : Re.cls) (k : bytes -> option R).

(** What a successful repetition has done: it took a run of the class,
    and the continuation accepted what is left. *)
Lemma star_Some : forall s run r,
  Re.star c k s = Some (run, r) ->
  exists t, s = run ++ t /\ forallb (Re.cls_mem c) run = true /\ k t = Some r.
Proof.
  induction s as [|b s IH]; intros run r; simpl.
  - destruct (k []) as [r0|] eqn:Hk; simpl; [|discriminate].
    intros [= <- <-]. exists []. auto.
  - destruct (Re.cls_mem c b) eqn:Hb.
    + destruct (Re.star c k s) as [[run0 r0]|] eqn:Hs.
      * intros [= <- <-]. destruct (IH run0 r0 eq_refl) as (t & -> & Hall & Hk).
        exists t. simpl. rewrite Hb. auto.
      * destruct (k (b :: s)) as [r0|] eqn:Hk; simpl; [|discriminate].
        intros [= <- <-]. exists (b :: s). auto.
    + destruct (k (b :: s)) as [r0|] eqn:Hk; simpl; [|discriminate].
      intros [= <- <-]. exists (b :: s). auto.
Qed.

(** A failed repetition: the continuation refuses what is left after
    every run of the class. *)
Lemma star_None : forall s,
  Re.star c k s = None ->
  forall run t, s = run ++ t -> forallb (Re.cls_mem c) run = true -> k t = None.
Proof.
  induction s as [|b s IH]; simpl; intros Hnone run t Heq Hall.
  - destruct run; [|discriminate]. simpl in Heq. subst t.
    destruct (k []); [discriminate | reflexivity].
  - destruct run as [|b' run].
    + simpl in Heq. subst t.
      destruct (Re.cls_mem c b); [destruct (Re.star c k s) as [[? ?]|]|];
        try discriminate; destruct (k (b :: s)); try discriminate; reflexivity.
    + simpl in Heq. injection Heq as <- ->. simpl in Hall.
      apply andb_true_iff in Hall as [Hb Hall]. rewrite Hb in Hnone.
      destruct (Re.star c k (run ++ t)) as [[? ?]|] eqn:Hs; [discriminate|].
      apply (IH eq_refl run t eq_refl Hall).
Qed.

(** The repetition is greedy: the continuation refuses what is left after
    every longer run of the class. *)
Lemma star_greedy : forall s run r,
  Re.star c k s = Some (run, r) ->
  forall run' t', s = run' ++ t' -> forallb (Re.cls_mem c) run' = true ->
                  (length run < length run')%nat -> k t' = None.
Proof.
  induction s as [|b s IH]; intros run r Hs run' t' Heq Hall Hlen.
  - destruct run'; [simpl in Hlen; lia | discriminate].
  - destruct run' as [|b' run']; [simpl in Hlen; lia|].
    simpl in Heq. injection Heq as <- ->. simpl in Hall.
    apply andb_true_iff in Hall as [Hb Hall].
    simpl in Hs. rewrite Hb in Hs.
    destruct (Re.star c k (run' ++ t')) as [[run0 r0]|] eqn:Hs0.
    + injection Hs as <- <-. simpl in Hlen.
      apply (IH run0 r0 eq_refl run' t' eq_refl Hall). lia.
    + apply (star_None _ Hs0 run' t' eq_refl Hall).
Qed.

Lemma star_complete s run t r :
  s = run ++ t ->
  forallb (Re.cls_mem c) run = true ->
  k t = Some r ->
  (forall run' t', s = run' ++ t' -> forallb (Re.cls_mem c) run' = true ->
                   (length run < length run')%nat -> k t' = None) ->
  Re.star c k s = Some (run, r).
Proof.
  intros Heq Hall Hk Hmax.
  destruct (Re.star c k s) as [[run2 r2]|] eqn:Hs.
  - destruct (star_Some _ _ _ Hs) as (t2 & Heq2 & Hall2 & Hk2).
    destruct (Nat.lt_trichotomy (length run) (length run2)) as [Hlt | [Hlen | Hgt]].
    + rewrite (Hmax run2 t2 Heq2 Hall2 Hlt) in Hk2. discriminate.
    + rewrite Heq in Heq2. apply app_inj_1 in Heq2 as [-> ->]; [|exact Hlen].
      congruence.
    + rewrite (star_greedy _ _ _ Hs run t Heq Hall Hgt) in Hk. discriminate.
  - rewrite (star_None _ Hs run t Heq Hall) in Hk. discriminate.
Qed.

End Star.

Lemma star_always {R} c (r : R) : forall s,
  exists run, Re.star c (fun _ => Some r) s = Some (run, r).
Proof.
  induction s as [|b s [run IH]]; simpl.
  - exists []. reflexivity.
  - destruct (Re.cls_mem c b).
    + rewrite IH. eauto.
    + exists []. reflexivity.
Qed.

Lemma star_whole {R} c (r : R) : forall s,
  forallb (Re.cls_mem c) s = true ->
  Re.star c (fun _ => Some r) s = Some (s, r).
Proof.
  induction s as [|b s IH]; simpl; [reflexivity|].
  intros [Hb Hall]%andb_true_iff. rewrite Hb, (IH Hall). reflexivity.
Qed.

Lemma byte_eqb_eq a b : Byte.eqb a b = true <-> a = b.
Proof. split; [apply Byte.byte_dec_bl | apply Byte.byte_dec_lb]. Qed.

(** A literal stretch of the pattern matches exactly itself. *)
Lemma match_here_literal p gs : forall bs s,
  Re.match_here (map (fun b => Re.Plain (Re.One (Re.Chr b))) bs ++ p) s = Some gs
  <-> exists s', s = bs ++ s' /\ Re.match_here p s' = Some gs.
Proof.
  induction bs as [|b bs IH]; intros s.
  - simpl. split; [intros Hm; exists s; auto | intros (s' & -> & Hm); exact Hm].
  - cbn [map app Re.match_here Re.match_atom]. destruct s as [|a s].
    + split; [discriminate | intros (s' & Heq & _); discriminate].
    + cbn [Re.cls_mem]. destruct (Byte.eqb b a) eqn:Hba.
      * apply byte_eqb_eq in Hba as ->.
        destruct (Re.match_here _ s) as [gs'|] eqn:Hm; simpl.
        -- split.
           ++ intros [= <-]. apply IH in Hm as (s' & -> & Hm). exists s'. auto.
           ++ intros (s' & [= ->] & Hm').
              assert (Re.match_here
                        (map (fun b => Re.Plain (Re.One (Re.Chr b))) bs ++ p)
                        (bs ++ s') = Some gs) as Hm2 by (apply IH; eauto).
              congruence.
        -- split; [discriminate|]. intros (s' & [= ->] & Hm').
           assert (Re.match_here
                     (map (fun b => Re.Plain (Re.One (Re.Chr b))) bs ++ p)
                     (bs ++ s') = Some gs) as Hm2 by (apply IH; eauto).
           congruence.
      * split; [discriminate|]. intros (s' & [= -> ->] & _).
        rewrite (proj2 (byte_eqb_eq b b) eq_refl) in Hba. discriminate.
Qed.

(** ** The work unit pattern *)

Lemma dot_run text :
  forallb (Re.cls_mem Re.Dot) text = true <-> x0a ∉ text.
Proof.
  induction text as [|b text IH]; simpl.
  - split; [intros _ Hin; inversion Hin | reflexivity].
  - rewrite andb_true_iff, IH, negb_true_iff, not_elem_of_cons. split.
    + intros [Hb Hnot]. split; [|exact Hnot]. intros <-.
      rewrite (proj2 (byte_eqb_eq x0a x0a) eq_refl) in Hb. discriminate.
    + intros [Hb Hnot]. split; [|exact Hnot].
      destruct (Byte.eqb b x0a) eqn:Heq; [|reflexivity].
      apply byte_eqb_eq in Heq. congruence.
Qed.

Lemma workunit_re_unfold :
  workunit_re =
  map (fun b => Re.Plain (Re.One (Re.Chr b))) (blit "created workunit; ")
  ++ Re.Plain (Re.Star Re.Dot) :: tail_nodes.
Proof. reflexivity. Qed.

(** The group [([0-9]+)] at the end of the pattern: a first digit and the
    longest run of digits after it. *)
Lemma digits_node_Some s gs :
  Re.match_here digits_node s = Some gs <->
  exists d run rest,
    s = d :: run ++ rest /\ gs = [d :: run] /\ is_digit d = true
    /\ forallb is_digit run = true
    /\ (forall e rest', rest = e :: rest' -> is_digit e = false).
Proof.
  unfold digits_node. cbn [Re.match_here Re.match_atom].
  change (Re.match_here []) with (fun _ : bytes => Some (@nil bytes)).
  destruct s as [|d s].
  - split; [discriminate | intros (d & run & rest & Heq & _); discriminate].
  - change (Re.cls_mem (Re.Range "0" "9") d) with (is_digit d).
    destruct (is_digit d) eqn:Hd.
    + destruct (Re.star (Re.Range "0" "9") (fun _ => Some (@nil bytes)) s)
        as [[run r]|] eqn:Hs.
      * destruct (star_Some _ _ _ _ _ Hs) as (t & -> & Hall & [= <-]).
        simpl. split.
        -- intros [= <-]. exists d, run, t. repeat split; try assumption.
           intros e rest' ->.
           destruct (is_digit e) eqn:He; [|reflexivity].
           assert (Some (@nil bytes) = None) as Habs; [|discriminate].
           apply (star_greedy _ _ _ _ _ Hs (run ++ [e]) rest').
           ++ rewrite <- app_assoc. reflexivity.
           ++ rewrite forallb_app, Hall. cbn [forallb andb].
              change (Re.cls_mem (Re.Range "0" "9") e) with (is_digit e).
              rewrite He. reflexivity.
           ++ rewrite length_app. simpl. lia.
        -- intros (d' & run' & rest & [= <- Heq] & -> & _ & Hall' & Hstop).
           f_equal. f_equal. f_equal.
           assert (Re.star (Re.Range "0" "9") (fun _ => Some (@nil bytes)) (run ++ t)
                   = Some (run', [])) as Hs'.
           { apply (star_complete _ _ _ run' rest); auto.
             intros run2 t2 Heq2 Hall2 Hlen. exfalso.
             rewrite Heq in Heq2.
             apply app_eq_inv in Heq2 as [(m & Hm1 & Hm2) | (m & Hm1 & Hm2)].
             - subst run'. rewrite length_app in Hlen. lia.
             - subst run2. destruct m as [|e m].
               + rewrite app_nil_r in Hlen. lia.
               + rewrite forallb_app in Hall2. cbn [forallb] in Hall2.
                 apply andb_true_iff in Hall2 as [_ [He _]%andb_true_iff].
                 change (Re.cls_mem (Re.Range "0" "9") e) with (is_digit e) in He.
                 rewrite (Hstop e (m ++ t2) Hm2) in He. discriminate. }
           congruence.
      * destruct (star_always (Re.Range "0" "9") (@nil bytes) s) as [run Hrun].
        congruence.
    + split; [discriminate|].
      intros (d' & run & rest & [= <- _] & _ & Hd' & _). congruence.
Qed.

Lemma digits_node_whole ds :
  ds <> [] -> forallb is_digit ds = true ->
  Re.match_here digits_node ds = Some [ds].
Proof.
  intros Hne Hall. destruct ds as [|d ds]; [contradiction|].
  simpl in Hall. apply andb_true_iff in Hall as [Hd Hall].
  apply digits_node_Some. exists d, ds, []. rewrite app_nil_r.
  repeat split; try assumption. intros e rest' [=].
Qed.

(** What follows the free text: the separator, then the digits. *)
Lemma tail_nodes_Some t gs :
  Re.match_here tail_nodes t = Some gs <->
  exists d run rest,
    t = blit ", ID " ++ d :: run ++ rest /\ gs = [d :: run] /\ is_digit d = true
    /\ forallb is_digit run = true
    /\ (forall e rest', rest = e :: rest' -> is_digit e = false).
Proof.
  unfold tail_nodes. rewrite match_here_literal. split.
  - intros (s' & -> & (d & run & rest & -> & Hrest)%digits_node_Some).
    exists d, run, rest. split; [reflexivity | exact Hrest].
  - intros (d & run & rest & -> & Hrest). exists (d :: run ++ rest).
    split; [reflexivity|]. apply digits_node_Some. exists d, run, rest.
    split; [reflexivity | exact Hrest].
Qed.

(** The digits are not followed by a start of the separator: after a
    proper, non-empty stretch of [", ID " ++ ds] no match of the tail
    begins. *)
Lemma tail_nodes_not_inside ds m t :
  forallb is_digit ds = true ->
  blit ", ID " ++ ds = m ++ t -> m <> [] ->
  Re.match_here tail_nodes t = None.
Proof.
  intros Hall Heq Hm.
  destruct (Re.match_here tail_nodes t) as [gs|] eqn:Ht; [exfalso|reflexivity].
  apply tail_nodes_Some in Ht as (d & run & rest & -> & _).
  destruct m as [|m1 [|m2 [|m3 [|m4 [|m5 m]]]]]; try contradiction;
    try (vm_compute in Heq; discriminate).
  change (blit ", ID " ++ ds) with (x2c :: x20 :: x49 :: x44 :: x20 :: ds) in Heq.
  injection Heq as _ _ _ _ _ ->.
  rewrite forallb_app in Hall. apply andb_true_iff in Hall as [_ Hall].
  vm_compute in Hall. discriminate.
Qed.

Lemma match_workunit_unfold line gs :
  Re.match_ workunit_re line = Some gs <->
  exists s run,
    line = blit "created workunit; " ++ s
    /\ Re.star Re.Dot (Re.match_here tail_nodes) s = Some (run, gs).
Proof.
  unfold Re.match_. rewrite workunit_re_unfold, match_here_literal.
  cbn [Re.match_here Re.match_atom]. split.
  - intros (s & -> & Hm). exists s.
    destruct (Re.star Re.Dot (Re.match_here tail_nodes) s) as [[run r]|];
      [|discriminate].
    injection Hm as <-. eauto.
  - intros (s & run & -> & Hs). exists s. rewrite Hs. auto.
Qed.

Lemma tail_nodes_accepts d rest :
  is_digit d = true ->
  Re.match_here tail_nodes (blit ", ID " ++ d :: rest) <> None.
Proof.
  intros Hd.
  destruct (star_always (Re.Range "0" "9") (@nil bytes) rest) as [run Hrun].
  destruct (Re.match_here digits_node (d :: rest)) as [gs|] eqn:Hg.
  - assert (Re.match_here tail_nodes (blit ", ID " ++ d :: rest) = Some gs)
      as -> by (apply match_here_literal; eauto).
    discriminate.
  - exfalso. revert Hg. unfold digits_node. cbn [Re.match_here Re.match_atom].
    change (Re.cls_mem (Re.Range "0" "9") d) with (is_digit d). rewrite Hd.
    change (Re.match_here []) with (fun _ : bytes => Some (@nil bytes)).
    rewrite Hrun. discriminate.
Qed.

(** A match of the pattern: the line has the form of [workunit_line], the
    group holds the digits, all of them, that follow the separator, and
    the separator taken is the last one that a digit follows. *)
Lemma match_workunit_sound line gs :
  Re.match_ workunit_re line = Some gs ->
  exists text ds rest,
    gs = [ds]
    /\ line = blit "created workunit; " ++ text ++ blit ", ID " ++ ds ++ rest
    /\ (x0a ∉ text) /\ ds <> [] /\ forallb is_digit ds = true
    /\ (forall e rest', rest = e :: rest' -> is_digit e = false)
    /\ (forall text' d' rest',
          line = blit "created workunit; " ++ text' ++ blit ", ID " ++ d' :: rest' ->
          x0a ∉ text' -> is_digit d' = true ->
          (length text' <= length text)%nat).
Proof.
  intros (s & text & -> & Hs)%match_workunit_unfold.
  pose proof (star_greedy _ _ _ _ _ Hs) as Hgreedy.
  apply star_Some in Hs as (t & -> & Hdot & Ht).
  apply tail_nodes_Some in Ht as (d & run & rest & -> & -> & Hd & Hall & Hstop).
  exists text, (d :: run), rest. repeat split.
  - apply dot_run. exact Hdot.
  - discriminate.
  - simpl. rewrite Hd, Hall. reflexivity.
  - exact Hstop.
  - intros text' d' rest' Heq Hnl' Hd'.
    apply app_inv_head in Heq.
    destruct (le_lt_dec (length text') (length text)) as [Hle | Hlt]; [exact Hle|].
    exfalso. apply (tail_nodes_accepts d' rest' Hd').
    apply (Hgreedy text' _ Heq); [apply dot_run; exact Hnl' | exact Hlt].
Qed.

(** Every line of that form is matched. *)
Lemma match_workunit_complete line :
  workunit_line line -> is_Some (Re.match_ workunit_re line).
Proof.
  intros (text & d & rest & -> & Hnl & Hd).
  destruct (Re.star Re.Dot (Re.match_here tail_nodes)
              (text ++ blit ", ID " ++ d :: rest)) as [[run gs]|] eqn:Hs.
  - exists gs. apply match_workunit_unfold. eauto.
  - exfalso. apply (tail_nodes_accepts d rest Hd).
    apply (star_None _ _ _ Hs text (blit ", ID " ++ d :: rest) eq_refl
             (proj2 (dot_run text) Hnl)).
Qed.

Lemma match_workunit_iff line :
  is_Some (Re.match_ workunit_re line) <-> workunit_line line.
Proof.
  split; [|apply match_workunit_complete].
  intros [gs (text & ds & rest & _ & -> & Hnl & Hne & Hall & _ & _)%match_workunit_sound].
  destruct ds as [|d ds]; [contradiction|].
  simpl in Hall. apply andb_true_iff in Hall as [Hd _].
  exists text, d, (ds ++ rest). auto.
Qed.

Lemma match_workunit_None line :
  ~ workunit_line line -> Re.match_ workunit_re line = None.
Proof.
  intros Hno. destruct (Re.match_ workunit_re line) as [gs|] eqn:Hm; [|reflexivity].
  exfalso. apply Hno, match_workunit_iff. eauto.
Qed.

(** A line that ends with the digits: the group is these digits. *)
Lemma match_workunit_exact text ds :
  x0a ∉ text -> ds <> [] -> forallb is_digit ds = true ->
  Re.match_ workunit_re (blit "created workunit; " ++ text ++ blit ", ID " ++ ds)
  = Some [ds].
Proof.
  intros Hnl Hne Hall. apply match_workunit_unfold.
  exists (text ++ blit ", ID " ++ ds), text. split; [reflexivity|].
  apply (star_complete _ _ _ text (blit ", ID " ++ ds)).
  - reflexivity.
  - apply dot_run. exact Hnl.
  - unfold tail_nodes. apply match_here_literal. exists ds.
    split; [reflexivity | apply digits_node_whole; assumption].
  - intros run' t' Heq _ Hlen.
    apply app_eq_inv in Heq as [(m & Hm1 & Hm2) | (m & Hm1 & Hm2)].
    + subst text. rewrite length_app in Hlen. lia.
    + subst run'. destruct m as [|b m].
      * rewrite app_nil_r in Hlen. lia.
      * apply (tail_nodes_not_inside ds (b :: m) t' Hall Hm2). discriminate.
Qed.

(** ** Lines *)

Lemma not_elem_of_bytes (b : byte) (l : bytes) :
  forallb (fun x => negb (Byte.eqb x b)) l = true -> b ∉ l.
Proof.
  induction l as [|x l IH]; simpl.
  - intros _ Hin. inversion Hin.
  - intros [Hx Hl]%andb_true_iff. apply not_elem_of_cons. split; [|exact (IH Hl)].
    intros <-. rewrite (proj2 (byte_eqb_eq b b) eq_refl) in Hx. discriminate.
Qed.

Lemma not_elem_of_bytes_nl (l : bytes) :
  forallb (fun x => negb (Byte.eqb x x0a)) l = true -> x0a ∉ l.
Proof. apply not_elem_of_bytes. Qed.


Lemma splitlines_from_no_newline : forall n s cur line,
  (length s <= n)%nat -> x0a ∉ cur ->
  line ∈ splitlines_from cur s -> x0a ∉ line.
Proof.
  induction n as [|n IH]; intros s cur line Hlen Hcur Hin.
  - destruct s; [|simpl in Hlen; lia]. simpl in Hin.
    destruct cur; [inversion Hin|]. apply list_elem_of_singleton in Hin as ->.
    exact Hcur.
  - destruct s as [|c s].
    + simpl in Hin. destruct cur; [inversion Hin|].
      apply list_elem_of_singleton in Hin as ->. exact Hcur.
    + simpl in Hlen. cbn [splitlines_from] in Hin.
      destruct (Byte.eqb c x0a) eqn:Hlf.
      * apply elem_of_cons in Hin as [-> | Hin]; [exact Hcur|].
        apply (IH s [] line); [lia | intros Habs; inversion Habs | exact Hin].
      * destruct (Byte.eqb c x0d) eqn:Hcr.
        -- destruct s as [|d s].
           ++ apply list_elem_of_singleton in Hin as ->. exact Hcur.
           ++ simpl in Hlen. destruct (Byte.eqb d x0a).
              ** apply elem_of_cons in Hin as [-> | Hin]; [exact Hcur|].
                 apply (IH s [] line); [lia | intros Habs; inversion Habs | exact Hin].
              ** apply elem_of_cons in Hin as [-> | Hin]; [exact Hcur|].
                 apply (IH (d :: s) [] line);
                   [simpl; lia | intros Habs; inversion Habs | exact Hin].
        -- apply (IH s (cur ++ [c]) line); [lia | | exact Hin].
           rewrite elem_of_app, list_elem_of_singleton. intros [Habs | <-].
           ++ contradiction.
           ++ rewrite (proj2 (byte_eqb_eq x0a x0a) eq_refl) in Hlf. discriminate.
Qed.

(** No line of [splitlines] holds a newline. *)
Lemma splitlines_no_newline s line :
  line ∈ splitlines s -> x0a ∉ line.
Proof.
  apply (splitlines_from_no_newline (length s) s []); [lia|].
  intros Habs. inversion Habs.
Qed.

(** ** Decimal numbers *)

Lemma fold_left_decimal : forall ds acc,
  fold_left (fun acc d => 10 * acc + digit_val d) ds acc
  = acc * 10 ^ N.of_nat (length ds) + decimal ds.
Proof.
  induction ds as [|d ds IH]; intros acc.
  - simpl. lia.
  - cbn [fold_left decimal length]. rewrite IH.
    rewrite Nat2N.inj_succ, N.pow_succ_r'. lia.
Qed.

Lemma int_of_digits_decimal limit ds :
  ds <> [] -> forallb is_digit ds = true -> over_digit_limit limit ds = false ->
  int_of_digits limit ds = Some (decimal ds).
Proof.
  intros Hne Hall Hlim. unfold int_of_digits. destruct ds as [|d ds]; [contradiction|].
  rewrite Hall, Hlim, fold_left_decimal. reflexivity.
Qed.

Lemma int_of_digits_over limit ds :
  over_digit_limit limit ds = true -> int_of_digits limit ds = None.
Proof.
  intros Hlim. unfold int_of_digits. destruct ds as [|d ds]; [reflexivity|].
  rewrite Hlim, andb_false_r. reflexivity.
Qed.

(** Up to 640 digits always convert. *)
Lemma short_within_limit limit ds :
  (length ds <= 640)%nat -> over_digit_limit limit ds = false.
Proof.
  intros Hlen. unfold over_digit_limit. cbv zeta.
  replace (640 <? N.of_nat (length ds)) with false; [reflexivity|].
  symmetry. apply N.ltb_ge. lia.
Qed.

(** ** [repr] of bytes loses nothing *)

Lemma repr_quote_cases s : repr_quote s = 34 \/ repr_quote s = 39.
Proof. unfold repr_quote. destruct (_ && _); auto. Qed.

Lemma unrepr_repr_byte q b rest :
  q = 34 \/ q = 39 ->
  unrepr_byte q (repr_byte q b ++ rest) = Some (b, rest).
Proof. intros [-> | ->]; destruct b; reflexivity. Qed.

Lemma repr_bytes_inj q : q = 34 \/ q = 39 ->
  forall a b, flat_map (repr_byte q) a = flat_map (repr_byte q) b -> a = b.
Proof.
  intros Hq. induction a as [|x a IH]; intros [|y b] Heq.
  - reflexivity.
  - exfalso. simpl in Heq. apply (f_equal (unrepr_byte q)) in Heq.
    rewrite (unrepr_repr_byte q y _ Hq) in Heq. discriminate.
  - exfalso. simpl in Heq. apply (f_equal (unrepr_byte q)) in Heq.
    rewrite (unrepr_repr_byte q x _ Hq) in Heq. discriminate.
  - simpl in Heq. apply (f_equal (unrepr_byte q)) in Heq.
    rewrite (unrepr_repr_byte q x _ Hq), (unrepr_repr_byte q y _ Hq) in Heq.
    injection Heq as -> Heq. f_equal. apply IH. exact Heq.
Qed.

(** The bytes can be read back from their [repr]. *)
Lemma bytes_repr_inj a b : bytes_repr a = bytes_repr b -> a = b.
Proof.
  unfold bytes_repr. intros [= Hq Heq]. rewrite <- Hq in Heq.
  apply app_inv_tail in Heq.
  apply (repr_bytes_inj _ (repr_quote_cases a) a b Heq).
Qed.

(** ** Submission *)

Section Submit.
Context `{Host}.

Lemma for_lines_skip orelse : forall before rest,
  Forall (fun l => ~ workunit_line l) before ->
  for_lines (before ++ rest) orelse = for_lines rest orelse.
Proof.
  induction before as [|l before IH]; intros rest Hall; [reflexivity|].
  inversion Hall as [|? ? Hl Hbefore]; subst.
  change ((l :: before) ++ rest) with (l :: (before ++ rest)). cbn [for_lines].
  rewrite (match_workunit_None l Hl). apply IH. exact Hbefore.
Qed.

Lemma for_lines_hit line after orelse ds w :
  Re.match_ workunit_re line = Some [ds] ->
  for_lines (line :: after) orelse w
  = (if over_digit_limit int_max_str_digits ds
     then Raise ValueError else Return (decimal ds), w).
Proof.
  intros Hm. cbn [for_lines]. rewrite Hm.
  change (default [] (head [ds])) with ds.
  apply match_workunit_sound in Hm
    as (text & ds' & rest & [= <-] & _ & _ & Hne & Hall & _).
  destruct (over_digit_limit int_max_str_digits ds) eqn:Hlim.
  - rewrite (int_of_digits_over _ ds Hlim). reflexivity.
  - rewrite (int_of_digits_decimal _ ds Hne Hall Hlim). reflexivity.
Qed.

Lemma for_lines_none lines orelse :
  Forall (fun l => ~ workunit_line l) lines ->
  for_lines lines orelse = orelse.
Proof.
  intros Hall. rewrite <- (app_nil_r lines). apply for_lines_skip. exact Hall.
Qed.

(** The loop raises nothing of its own but [ValueError], and leaves the
    world as it is. *)
Lemma for_lines_world e : forall lines w,
  snd (for_lines lines (raise e) w) = w
  /\ forall e', fst (for_lines lines (raise e) w) = Raise e' ->
                e' = e \/ e' = ValueError.
Proof.
  induction lines as [|l lines IH]; intros w; cbn [for_lines].
  - split; [reflexivity|]. intros e' [= <-]. auto.
  - destruct (Re.match_ workunit_re l) as [gs|]; [|apply IH].
    destruct (int_of_digits int_max_str_digits (default [] (head gs)));
      cbn [from_option].
    + split; [reflexivity | discriminate].
    + split; [reflexivity|]. intros e' [= <-]. auto.
Qed.

Lemma check_output_create_work appname seed cmd_path w2 :
  (try_except
     (check_output (create_work_argv appname seed (basename cmd_path))
                   BOINC_PROJECT_DIR true)
     (fun e =>
        match e with
        | CalledProcessError _ output =>
            Some (raise (BoincError (lit "create_work returned error: "
                                     ++ bytes_repr output)))
        | _ => None
        end)
   ≫= fun result =>
        for_lines (splitlines result)
          (raise (BoincError (lit "Could not find ID in create_work output: "
                              ++ bytes_repr result)))) w2
  = create_work_outcome appname seed cmd_path w2.
Proof.
  rewrite bind_run. unfold try_except, check_output, create_work_outcome.
  cbv zeta.
  destruct (run _ BOINC_PROJECT_DIR true w2) as [[|rc|rc] out| |e] eqn:Hrun;
    try reflexivity.
  apply run_Refused, arg_error_cases in Hrun as [-> | ->]; reflexivity.
Qed.

(** [submit_job] once the seed arguments are valid and staging is done. *)
Lemma submit_job_staged appname cmdline seed_file seed_contents w seed cmd_path w2 :
  staged_for_submit cmdline seed_file seed_contents w seed cmd_path w2 ->
  submit_job appname cmdline seed_file seed_contents w
  = create_work_outcome appname seed cmd_path w2.
Proof.
  intros (Hvalid & w1 & cc & Hseed & Henc & Hcmd).
  unfold submit_job. rewrite Hvalid. rewrite bind_run.
  assert ((if truthy seed_contents
           then stage_file (lit "input") (default [] seed_contents)
           else if negb (truthy seed_file)
                then raise (InternalError (lit "No seed specified"))
                else ret (default [] seed_file)) w = (Return seed, w1)) as ->.
  { destruct (truthy seed_contents); [exact Hseed|].
    destruct Hseed as (-> & -> & ->). reflexivity. }
  rewrite bind_run, Henc. cbn [from_option ret]. rewrite bind_run, Hcmd.
  apply check_output_create_work.
Qed.

(** [submit_job] with a seed file and no usable seed contents. *)
Lemma submit_job_seed_file appname cmdline seed_file seed_contents w :
  seed_file <> [] -> truthy seed_contents = false ->
  submit_job appname cmdline (Some seed_file) seed_contents w
  = match utf8_encode cmdline with
    | None => (Raise UnicodeEncodeError, w)
    | Some cmd_contents =>
        match stage_file (lit "cmdline") cmd_contents w with
        | (Return cmd_path, w2) => create_work_outcome appname seed_file cmd_path w2
        | (Raise e, w2) => (Raise e, w2)
        end
    end.
Proof.
  intros Hne Hsc. unfold submit_job. rewrite Hsc, andb_false_r.
  destruct seed_file as [|c seed_file]; [contradiction|]. cbn [truthy negb].
  rewrite bind_run. cbn [ret default]. rewrite bind_run.
  destruct (utf8_encode cmdline) as [cc|]; [|reflexivity].
  cbn [from_option ret]. rewrite bind_run.
  destruct (stage_file (lit "cmdline") cc w) as [[cp|e] w2]; [|reflexivity].
  apply check_output_create_work.
Qed.

Lemma stage_file_raises prefix contents w e w' :
  stage_file prefix contents w = (Raise e, w') ->
  forall m, e = InternalError m ->
            m = lit "Attempted to stage " ++ _filename_for_contents prefix contents
                ++ lit " with differing contents".
Proof.
  rewrite stage_file_run. cbv zeta.
  destruct (dir_hier_path _ w) as [[path|e0] w1] eqn:Hd.
  - destruct (store w1 !! path).
    + destruct (bool_decide _); [|discriminate].
      intros [= <- _] m [= <-]. reflexivity.
    + destruct (can_create path); [discriminate|]. intros [= <- _] m [=].
  - intros [= <- _] m ->. exfalso. revert Hd.
    unfold dir_hier_path. rewrite bind_run. unfold check_output.
    destruct (run _ _ _ w) as [[|rc|rc] out| |e0] eqn:Hrun; try discriminate.
    + destruct (utf8_decode (strip out)); discriminate.
    + intros [= -> _]. apply run_Refused, arg_error_cases in Hrun as [? | ?];
        discriminate.
Qed.

Lemma create_work_outcome_raises appname seed cmd_path w2 m :
  fst (create_work_outcome appname seed cmd_path w2) = Raise (InternalError m) -> False.
Proof.
  unfold create_work_outcome. cbv zeta.
  destruct (run _ BOINC_PROJECT_DIR true w2) as [[|rc|rc] out| |e0] eqn:Hrun;
    try discriminate.
  - intros He. apply (for_lines_world _ (splitlines out)) in He as [He | He];
      discriminate.
  - simpl. intros [= ->]. apply run_Refused, arg_error_cases in Hrun as [? | ?];
      discriminate.
Qed.

Lemma create_work_outcome_log appname seed cmd_path w2 :
  log (snd (create_work_outcome appname seed cmd_path w2))
  = log w2 ++ [Spawn (create_work_argv appname seed (basename cmd_path))
                     BOINC_PROJECT_DIR]
  /\ store (snd (create_work_outcome appname seed cmd_path w2)) = store w2.
Proof.
  unfold create_work_outcome. cbv zeta.
  destruct (run _ BOINC_PROJECT_DIR true w2) as [[|rc|rc] out| |e0];
    try (split; reflexivity).
  rewrite (proj1 (for_lines_world _ (splitlines out) _)). split; reflexivity.
Qed.

End Submit.

(** C3, as stated, fails: a call with both seed forms supplied is not
    always refused. What the code tests is whether each argument is
    non-empty, so a seed file together with empty inline contents passes
    the check; here the call goes on, stages the command line, calls the
    tool and returns 42. *)
Lemma seed_both_supplied_accepted :
  let host := Fixture.stub_host (Exited 0 (blit "created workunit; foo bar, ID 42")) in
  fst (submit_job (H := host) (lit "myapp") (lit "run.sh")
                  (Some (lit "/srv/boinc/download/3f/input_a1")) (Some [])
                  Fixture.empty_world)
  = Return 42.
Proof. intros host. vm_compute. reflexivity. Qed.

(** C3, amended. [submit_job] called with both seed arguments non-empty
    (a non-empty [seed_file] and a non-empty [seed_contents], which is
    what the [if] of the code tests) raises [InternalError] (the class the
    code uses for the spec's ConfigurationError) with the message "Only
    one of seed_file and seed_contents can be specified"; called with
    neither non-empty it raises [InternalError] with the different message
    "No seed specified". In both cases the world is returned as it was:
    nothing is staged and no process is started. *)
Theorem submit_job_seed_exclusive `{Host} appname cmdline seed_file seed_contents w :
  (truthy seed_file = true -> truthy seed_contents = true ->
   submit_job appname cmdline seed_file seed_contents w
   = (Raise (InternalError
               (lit "Only one of seed_file and seed_contents can be specified")), w))
  /\ (truthy seed_file = false -> truthy seed_contents = false ->
      submit_job appname cmdline seed_file seed_contents w
      = (Raise (InternalError (lit "No seed specified")), w))
  /\ lit "Only one of seed_file and seed_contents can be specified"
     <> lit "No seed specified".
Proof.
  split; [|split].
  - intros Hf Hc. unfold submit_job. rewrite Hf, Hc. reflexivity.
  - intros Hf Hc. unfold submit_job. rewrite Hf, Hc. reflexivity.
  - vm_compute. discriminate.
Qed.

Lemma submit_job_seed_exclusive_witness :
  let host := Fixture.stub_host NotStarted in
  submit_job (H := host) (lit "myapp") (lit "run.sh")
             (Some (lit "/srv/boinc/download/3f/input_a1")) (Some (blit "seed"))
             Fixture.empty_world
  = (Raise (InternalError
              (lit "Only one of seed_file and seed_contents can be specified")),
     Fixture.empty_world)
  /\ submit_job (H := host) (lit "myapp") (lit "run.sh") None None Fixture.empty_world
     = (Raise (InternalError (lit "No seed specified")), Fixture.empty_world).
Proof.
  intros host. split.
  - apply (proj1 (submit_job_seed_exclusive (H := host) (lit "myapp") (lit "run.sh")
                    (Some (lit "/srv/boinc/download/3f/input_a1")) (Some (blit "seed"))
                    Fixture.empty_world)); reflexivity.
  - apply (proj1 (proj2 (submit_job_seed_exclusive (H := host) (lit "myapp") (lit "run.sh")
                           None None Fixture.empty_world))); reflexivity.
Defined.

(** C10. Presence of a seed argument is its truthiness. With no
    [seed_file] and [seed_contents] the empty bytes, [submit_job] raises
    the "No seed specified" error, the world untouched. With a non-empty
    [seed_file] and [seed_contents] the empty bytes it behaves as with that
    [seed_file] alone: neither seed error is raised, and once the command
    line is staged at [cmd_path], [bin/create_work] is called with the
    given [seed_file] and the base name of [cmd_path]. *)
Theorem submit_job_empty_seed_contents `{Host} appname cmdline w :
  submit_job appname cmdline None (Some []) w
  = (Raise (InternalError (lit "No seed specified")), w)
  /\ forall seed_file, seed_file <> [] ->
       submit_job appname cmdline (Some seed_file) (Some []) w
       = submit_job appname cmdline (Some seed_file) None w
       /\ fst (submit_job appname cmdline (Some seed_file) (Some []) w)
          <> Raise (InternalError
                      (lit "Only one of seed_file and seed_contents can be specified"))
       /\ fst (submit_job appname cmdline (Some seed_file) (Some []) w)
          <> Raise (InternalError (lit "No seed specified"))
       /\ (forall cmd_contents cmd_path w2,
             utf8_encode cmdline = Some cmd_contents ->
             stage_file (lit "cmdline") cmd_contents w = (Return cmd_path, w2) ->
             log (snd (submit_job appname cmdline (Some seed_file) (Some []) w))
             = log w2 ++ [Spawn [lit "bin/create_work"; lit "--appname"; appname;
                                 lit "--verbose"; seed_file; basename cmd_path]
                                BOINC_PROJECT_DIR]).
Proof.
  split; [reflexivity|]. intros seed_file Hne.
  rewrite !(submit_job_seed_file appname cmdline seed_file) by (exact Hne || reflexivity).
  split; [reflexivity|].
  assert (forall m,
            fst (match utf8_encode cmdline with
                 | None => (Raise UnicodeEncodeError, w)
                 | Some cc =>
                     match stage_file (lit "cmdline") cc w with
                     | (Return cp, w2) => create_work_outcome appname seed_file cp w2
                     | (Raise e, w2) => (Raise e, w2)
                     end
                 end) = Raise (InternalError m) ->
            exists cc, m = lit "Attempted to stage "
                           ++ _filename_for_contents (lit "cmdline") cc
                           ++ lit " with differing contents") as Hmsg.
  { intros m. destruct (utf8_encode cmdline) as [cc|]; [|discriminate].
    destruct (stage_file (lit "cmdline") cc w) as [[cp|e] w2] eqn:Hs.
    - intros He. apply create_work_outcome_raises in He. contradiction.
    - simpl. intros [= ->]. exists cc.
      apply (stage_file_raises _ _ _ _ _ Hs m eq_refl). }
  split; [|split].
  - intros He. apply Hmsg in He as [cc He].
    apply (f_equal head) in He. vm_compute in He. discriminate.
  - intros He. apply Hmsg in He as [cc He].
    apply (f_equal head) in He. vm_compute in He. discriminate.
  - intros cc cp w2 -> ->. apply create_work_outcome_log.
Qed.

Lemma submit_job_empty_seed_contents_witness :
  let host := Fixture.stub_host (Exited 0 (blit "created workunit; foo bar, ID 42")) in
  submit_job (H := host) (lit "myapp") (lit "run.sh")
             (Some (lit "/srv/boinc/download/3f/input_a1")) (Some [])
             Fixture.empty_world
  = submit_job (H := host) (lit "myapp") (lit "run.sh")
               (Some (lit "/srv/boinc/download/3f/input_a1")) None
               Fixture.empty_world.
Proof.
  intros host.
  apply (proj2 (submit_job_empty_seed_contents (H := host) (lit "myapp") (lit "run.sh")
                  Fixture.empty_world) (lit "/srv/boinc/download/3f/input_a1")).
  discriminate.
Defined.

(** C4, as stated, fails: the digits of the first matching line are not
    always returned as an integer. The interpreter converts at most
    [int_max_str_digits] digits (4300 by default); here the tool exits
    with code zero and prints a work unit line whose identifier has 4301
    digits, and [submit_job] raises [ValueError]. *)
Lemma long_id_not_returned :
  let host := Fixture.stub_host
                (Exited 0 (blit "created workunit; foo bar, ID " ++ Fixture.long_id)) in
  workunit_line (blit "created workunit; foo bar, ID " ++ Fixture.long_id)
  /\ fst (submit_job (H := host) (lit "myapp") (lit "run.sh") None (Some (blit "seed"))
                     Fixture.empty_world)
     = Raise ValueError.
Proof.
  intros host. split.
  - exists (blit "foo bar"), "1"%byte, (repeat ("1"%byte) 4300).
    split; [reflexivity|]. split; [|reflexivity].
    apply not_elem_of_bytes_nl. reflexivity.
  - vm_compute. reflexivity.
Qed.

(** C4, amended. Let the seed and the command line be staged and let
    [bin/create_work] exit with code zero and the output [out]. Let [line]
    be the first line of [out] of the form [workunit_line], that is, the
    first line the pattern matches, and [ds] the digits that follow the
    separator [", ID "] in [line] (digits up to the first byte that is no
    digit, after the last separator that a digit follows). When [ds] is
    within the interpreter's limit on the digits of an integer (at most
    640 digits, or no limit set, or not more digits than the limit),
    [submit_job] returns the number [ds] writes; beyond the limit it
    raises [ValueError]. When [line] ends with its digits, they are the
    digits of the result; the line [created workunit; foo bar, ID 42]
    gives 42. *)
Theorem submit_job_returns_id `{Host}
    appname cmdline seed_file seed_contents w seed cmd_path w2 out before line after :
  staged_for_submit cmdline seed_file seed_contents w seed cmd_path w2 ->
  run (create_work_argv appname seed (basename cmd_path)) BOINC_PROJECT_DIR true w2
  = Exited 0 out ->
  splitlines out = before ++ line :: after ->
  Forall (fun l => ~ workunit_line l) before ->
  let w3 := emit (Spawn (create_work_argv appname seed (basename cmd_path))
                        BOINC_PROJECT_DIR) w2 in
  (workunit_line line ->
   exists text ds rest,
     line = blit "created workunit; " ++ text ++ blit ", ID " ++ ds ++ rest
     /\ ds <> [] /\ forallb is_digit ds = true
     /\ (forall e rest', rest = e :: rest' -> is_digit e = false)
     /\ (forall text' d' rest',
           line = blit "created workunit; " ++ text' ++ blit ", ID " ++ d' :: rest' ->
           is_digit d' = true -> (length text' <= length text)%nat)
     /\ submit_job appname cmdline seed_file seed_contents w
        = (if over_digit_limit int_max_str_digits ds
           then Raise ValueError else Return (decimal ds), w3))
  /\ (forall text ds,
        line = blit "created workunit; " ++ text ++ blit ", ID " ++ ds ->
        ds <> [] -> forallb is_digit ds = true ->
        over_digit_limit int_max_str_digits ds = false ->
        submit_job appname cmdline seed_file seed_contents w
        = (Return (decimal ds), w3))
  /\ (line = blit "created workunit; foo bar, ID 42" ->
      submit_job appname cmdline seed_file seed_contents w = (Return 42, w3)).
Proof.
  intros Hstaged Hrun Hlines Hbefore w3.
  assert (x0a ∉ line) as Hnl.
  { apply (splitlines_no_newline out). rewrite Hlines.
    apply elem_of_app. right. apply elem_of_cons. left. reflexivity. }
  assert (forall ds, Re.match_ workunit_re line = Some [ds] ->
                     submit_job appname cmdline seed_file seed_contents w
                     = (if over_digit_limit int_max_str_digits ds
                        then Raise ValueError else Return (decimal ds), w3)) as Hhit.
  { intros ds Hm. rewrite (submit_job_staged _ _ _ _ _ _ _ _ Hstaged).
    unfold create_work_outcome. cbv zeta. rewrite Hrun, Hlines.
    rewrite (for_lines_skip _ _ _ Hbefore). apply for_lines_hit. exact Hm. }
  assert (forall text ds,
            line = blit "created workunit; " ++ text ++ blit ", ID " ++ ds ->
            ds <> [] -> forallb is_digit ds = true ->
            Re.match_ workunit_re line = Some [ds]) as Hexact.
  { intros text ds -> Hne Hall. apply match_workunit_exact; try assumption.
    intros Hin. apply Hnl. rewrite !elem_of_app. right. left. exact Hin. }
  split; [|split].
  - intros [gs Hm]%match_workunit_iff.
    destruct (match_workunit_sound _ _ Hm)
      as (text & ds & rest & -> & Heq & Hnl' & Hne & Hall & Hstop & Hlast).
    exists text, ds, rest. repeat split; try assumption.
    + intros text' d' rest' Heq' Hd'. apply (Hlast text' d' rest' Heq'); [|exact Hd'].
      intros Hin. apply Hnl. rewrite Heq'. rewrite !elem_of_app. right. left. exact Hin.
    + apply Hhit. exact Hm.
  - intros text ds Heq Hne Hall Hlim.
    rewrite (Hhit ds (Hexact text ds Heq Hne Hall)), Hlim. reflexivity.
  - intros Heq.
    rewrite (Hhit (blit "42")
               (Hexact (blit "foo bar") (blit "42") Heq ltac:(discriminate) eq_refl)).
    rewrite (short_within_limit _ (blit "42")) by (simpl; lia). reflexivity.
Qed.

(** The happy path of the spec: the tool exits 0 and prints
    [created workunit; foo bar, ID 42]; submitting the inline seed
    [b"seed"] returns 42, after the seed and the command line are staged
    and the tool is started once. *)
Lemma submit_job_returns_id_witness :
  let host := Fixture.stub_host (Exited 0 (blit "created workunit; foo bar, ID 42")) in
  fst (submit_job (H := host) (lit "myapp") (lit "run.sh") None (Some (blit "seed"))
                  Fixture.empty_world)
  = Return 42.
Proof.
  intros host.
  pose (w1 := snd (stage_file (H := host) (lit "input") (blit "seed") Fixture.empty_world)).
  pose (w2 := snd (stage_file (H := host) (lit "cmdline") (blit "run.sh") w1)).
  assert (staged_for_submit (H := host) (lit "run.sh") None (Some (blit "seed"))
            Fixture.empty_world (lit "/srv/boinc/download/3f/input_a1")
            (lit "/srv/boinc/download/3f/cmdline_5e") w2) as Hstaged.
  { split; [reflexivity|]. exists w1, (blit "run.sh").
    split; [vm_compute; reflexivity|]. split; vm_compute; reflexivity. }
  assert (run (H := host)
              (create_work_argv (lit "myapp") (lit "/srv/boinc/download/3f/input_a1")
                 (basename (lit "/srv/boinc/download/3f/cmdline_5e")))
              BOINC_PROJECT_DIR true w2
          = Exited 0 (blit "created workunit; foo bar, ID 42")) as Hrun
    by reflexivity.
  assert (splitlines (blit "created workunit; foo bar, ID 42")
          = [] ++ blit "created workunit; foo bar, ID 42" :: []) as Hlines
    by reflexivity.
  rewrite (proj2 (proj2
            (submit_job_returns_id (H := host) (lit "myapp") (lit "run.sh")
               None (Some (blit "seed")) Fixture.empty_world _ _ w2 _ [] _ []
               Hstaged Hrun Hlines (List.Forall_nil _))) eq_refl).
  reflexivity.
Defined.

(** C5, as stated, fails: the two tool failures are not two kinds of
    error. A tool that exits with code 1 and one that exits with code 0
    without printing an identifier make [submit_job] raise an exception of
    one and the same class, [BoincError]; only the text of the message
    tells them apart. *)
Lemma tool_failures_share_class :
  let failing := Fixture.stub_host (Exited 1 (blit "disk full")) in
  let silent := Fixture.stub_host (Exited 0 (blit "ok, nothing created")) in
  let e1 := BoincError (lit "create_work returned error: b'disk full'") in
  let e2 := BoincError
              (lit "Could not find ID in create_work output: b'ok, nothing created'") in
  fst (submit_job (H := failing) (lit "myapp") (lit "run.sh") None (Some (blit "seed"))
                  Fixture.empty_world) = Raise e1
  /\ fst (submit_job (H := silent) (lit "myapp") (lit "run.sh") None (Some (blit "seed"))
                     Fixture.empty_world) = Raise e2
  /\ class_of e1 = class_of e2.
Proof.
  intros failing silent e1 e2. split; [|split].
  - vm_compute. reflexivity.
  - vm_compute. reflexivity.
  - reflexivity.
Qed.

(** C5, amended. Let the seed and the command line be staged. When
    [bin/create_work] exits with a code other than zero, [submit_job]
    raises [BoincError] with the message "create_work returned error: "
    followed by the [repr] of the captured output. When it exits with code
    zero and no line of the output has the form [workunit_line],
    [submit_job] raises [BoincError] with the message "Could not find ID
    in create_work output: " followed by the [repr] of the whole output.
    Both failures have the class [BoincError]; their messages always
    differ, and the output can be read back from its [repr]. *)
Theorem submit_job_tool_failures `{Host}
    appname cmdline seed_file seed_contents w seed cmd_path w2 :
  staged_for_submit cmdline seed_file seed_contents w seed cmd_path w2 ->
  let argv := create_work_argv appname seed (basename cmd_path) in
  let w3 := emit (Spawn argv BOINC_PROJECT_DIR) w2 in
  (forall rc out,
     rc <> 0%Z -> run argv BOINC_PROJECT_DIR true w2 = Exited rc out ->
     submit_job appname cmdline seed_file seed_contents w
     = (Raise (BoincError (lit "create_work returned error: " ++ bytes_repr out)), w3))
  /\ (forall out,
        run argv BOINC_PROJECT_DIR true w2 = Exited 0 out ->
        Forall (fun l => ~ workunit_line l) (splitlines out) ->
        submit_job appname cmdline seed_file seed_contents w
        = (Raise (BoincError (lit "Could not find ID in create_work output: "
                              ++ bytes_repr out)), w3))
  /\ (forall out1 out2,
        class_of (BoincError (lit "create_work returned error: " ++ bytes_repr out1))
        = class_of (BoincError (lit "Could not find ID in create_work output: "
                                ++ bytes_repr out2))
        /\ lit "create_work returned error: " ++ bytes_repr out1
           <> lit "Could not find ID in create_work output: " ++ bytes_repr out2)
  /\ (forall out out', bytes_repr out = bytes_repr out' -> out = out').
Proof.
  intros Hstaged argv w3. split; [|split; [|split]].
  - intros rc out Hrc Hrun. rewrite (submit_job_staged _ _ _ _ _ _ _ _ Hstaged).
    unfold create_work_outcome. cbv zeta. fold argv. rewrite Hrun.
    destruct rc; [contradiction | reflexivity | reflexivity].
  - intros out Hrun Hnone. rewrite (submit_job_staged _ _ _ _ _ _ _ _ Hstaged).
    unfold create_work_outcome. cbv zeta. fold argv. rewrite Hrun.
    rewrite (for_lines_none _ _ Hnone). reflexivity.
  - intros out1 out2. split; [reflexivity|].
    intros Heq. apply (f_equal head) in Heq. vm_compute in Heq. discriminate.
  - apply bytes_repr_inj.
Qed.

(** The tool failure of the spec: exit code 1 with the output
    [disk full]; the message carries [b'disk full']. *)
Lemma submit_job_tool_failures_witness :
  let host := Fixture.stub_host (Exited 1 (blit "disk full")) in
  fst (submit_job (H := host) (lit "myapp") (lit "run.sh") None (Some (blit "seed"))
                  Fixture.empty_world)
  = Raise (BoincError (lit "create_work returned error: b'disk full'")).
Proof.
  intros host.
  pose (w1 := snd (stage_file (H := host) (lit "input") (blit "seed") Fixture.empty_world)).
  pose (w2 := snd (stage_file (H := host) (lit "cmdline") (blit "run.sh") w1)).
  assert (staged_for_submit (H := host) (lit "run.sh") None (Some (blit "seed"))
            Fixture.empty_world (lit "/srv/boinc/download/3f/input_a1")
            (lit "/srv/boinc/download/3f/cmdline_5e") w2) as Hstaged.
  { split; [reflexivity|]. exists w1, (blit "run.sh").
    split; [vm_compute; reflexivity|]. split; vm_compute; reflexivity. }
  rewrite (proj1 (submit_job_tool_failures (H := host) (lit "myapp") (lit "run.sh")
                    None (Some (blit "seed")) Fixture.empty_world _ _ w2 Hstaged)
             1%Z (blit "disk full")).
  - reflexivity.
  - discriminate.
  - reflexivity.
Defined.

(** * Further properties of boinc.py *)

(** ** Relative paths *)

Lemma occurs_in_app_l sep pre s : occurs_in sep s -> occurs_in sep (pre ++ s).
Proof.
  intros (before & after & ->). exists (pre ++ before), after.
  rewrite <- app_assoc. reflexivity.
Qed.

Lemma clean_download_path_free (path : str) :
  ~ occurs_in (lit "/download/") (clean_download_path path).
Proof.
  unfold clean_download_path, rpartition.
  change (lit "/download/") with (47 :: lit "download/").
  destruct (rsplit_at (47 :: lit "download/") path) as [[hd tl]|] eqn:Hr.
  - apply rsplit_at_last in Hr. intros Hocc. apply Hr.
    apply occurs_in_app_l. exact Hocc.
  - apply rsplit_at_None in Hr. exact Hr.
Qed.

(** X1. The result of [clean_download_path] holds no [/download/] any
    more, so cleaning a cleaned path changes nothing. *)
Theorem clean_download_path_idempotent (path : str) :
  ~ occurs_in (lit "/download/") (clean_download_path path)
  /\ clean_download_path (clean_download_path path) = clean_download_path path.
Proof.
  pose proof (clean_download_path_free path) as Hfree.
  split; [exact Hfree|].
  revert Hfree. generalize (clean_download_path path). intros p Hfree.
  unfold clean_download_path, rpartition.
  change (lit "/download/") with (47 :: lit "download/") in *.
  apply rsplit_at_None in Hfree. rewrite Hfree. reflexivity.
Qed.

(** [os.path.basename] gives the last component. *)
Lemma basename_no_slash p : 47 ∉ basename p.
Proof.
  unfold basename. destruct (rsplit_at [47] p) as [[hd tl]|] eqn:Hr.
  - apply (rsplit_at_last 47 []) in Hr. intros Hin. apply Hr.
    apply list_elem_of_split in Hin as (l1 & l2 & ->).
    exists l1, l2. reflexivity.
  - apply (rsplit_at_None 47 []) in Hr. intros Hin. apply Hr.
    apply list_elem_of_split in Hin as (l1 & l2 & ->).
    exists l1, l2. reflexivity.
Qed.

Lemma basename_join dir name : 47 ∉ name -> basename (dir ++ [47] ++ name) = name.
Proof.
  intros Hname. unfold basename.
  rewrite (rsplit_at_app 47 [] dir name); [reflexivity|].
  intros (before & after & Heq). apply Hname. simpl in Heq. rewrite Heq.
  rewrite elem_of_app. right. left.
Qed.

(** X2. The base name that [submit_job] hands to the tool for the command
    file holds no slash; for a path made of a directory, a slash and a
    name without slash it is that name. *)
Theorem basename_last_component (p : str) :
  (47 ∉ basename p)
  /\ (forall dir name, p = dir ++ [47] ++ name -> 47 ∉ name -> basename p = name).
Proof.
  split; [apply basename_no_slash|].
  intros dir name -> Hname. apply basename_join. exact Hname.
Qed.

Lemma basename_last_component_witness :
  basename (lit "/srv/boinc/download/3f/cmdline_5e") = lit "cmdline_5e".
Proof.
  apply (proj2 (basename_last_component (lit "/srv/boinc/download/3f/cmdline_5e"))
           (lit "/srv/boinc/download/3f")).
  - reflexivity.
  - vm_compute. intros Hin.
    repeat (apply elem_of_cons in Hin as [Hin | Hin]; [discriminate|]).
    inversion Hin.
Defined.

(** ** UTF-8 *)

Lemma byte_of_to_N b : byte_of_N (Byte.to_N b) = b.
Proof. unfold byte_of_N. rewrite Byte.of_to_N. reflexivity. Qed.

Lemma to_N_byte_of_N n : n <= 255 -> Byte.to_N (byte_of_N n) = n.
Proof.
  intros Hn. unfold byte_of_N.
  destruct (Byte.of_N n) as [b|] eqn:Hb.
  - apply Byte.to_of_N in Hb. exact Hb.
  - apply Byte.of_N_None_iff in Hb. lia.
Qed.

(** Groups of six bits. *)

Ltac hide_divmod :=
  repeat match goal with
         | |- context [?a / ?b] => generalize dependent (a / b); intros
         | |- context [?a mod ?b] => generalize dependent (a mod b); intros
         | H : context [?a / ?b] |- _ => generalize dependent (a / b); intros
         | H : context [?a mod ?b] |- _ => generalize dependent (a mod b); intros
         end.

Lemma sextet_join2 a b : b < 64 -> (a * 64 + b) / 64 = a /\ (a * 64 + b) mod 64 = b.
Proof.
  intros Hb. split; symmetry.
  - apply (N.div_unique _ 64 a b); lia.
  - apply (N.mod_unique _ 64 a b); lia.
Qed.

Lemma sextet_join3 a b d : b < 64 -> d < 64 ->
  (a * 4096 + b * 64 + d) / 4096 = a
  /\ ((a * 4096 + b * 64 + d) / 64) mod 64 = b
  /\ (a * 4096 + b * 64 + d) mod 64 = d.
Proof.
  intros Hb Hd. split; [|split].
  - symmetry. apply (N.div_unique _ 4096 a (b * 64 + d)); lia.
  - replace (a * 4096 + b * 64 + d) with ((a * 64 + b) * 64 + d) by lia.
    rewrite (proj1 (sextet_join2 (a * 64 + b) d Hd)). apply (sextet_join2 a b Hb).
  - replace (a * 4096 + b * 64 + d) with ((a * 64 + b) * 64 + d) by lia.
    apply (sextet_join2 (a * 64 + b) d Hd).
Qed.

Lemma sextet_join4 a b d e : b < 64 -> d < 64 -> e < 64 ->
  let c := a * 262144 + b * 4096 + d * 64 + e in
  c / 262144 = a /\ (c / 4096) mod 64 = b /\ (c / 64) mod 64 = d /\ c mod 64 = e.
Proof.
  intros Hb Hd He c. subst c. split; [|split; [|split]].
  - symmetry. apply (N.div_unique _ 262144 a (b * 4096 + d * 64 + e)); lia.
  - replace (a * 262144 + b * 4096 + d * 64 + e)
      with ((a * 64 + b) * 4096 + d * 64 + e) by lia.
    rewrite (proj1 (sextet_join3 (a * 64 + b) d e Hd He)). apply (sextet_join2 a b Hb).
  - replace (a * 262144 + b * 4096 + d * 64 + e)
      with ((a * 4096 + b * 64 + d) * 64 + e) by lia.
    rewrite (proj1 (sextet_join2 (a * 4096 + b * 64 + d) e He)).
    replace (a * 4096 + b * 64 + d) with ((a * 64 + b) * 64 + d) by lia.
    apply (sextet_join2 (a * 64 + b) d Hd).
  - replace (a * 262144 + b * 4096 + d * 64 + e)
      with ((a * 4096 + b * 64 + d) * 64 + e) by lia.
    apply (sextet_join2 (a * 4096 + b * 64 + d) e He).
Qed.

Lemma sextet_split2 c : c = c / 64 * 64 + c mod 64 /\ c mod 64 < 64.
Proof.
  pose proof (N.div_mod c 64 ltac:(lia)). pose proof (N.mod_lt c 64 ltac:(lia)).
  hide_divmod. lia.
Qed.

Lemma sextet_split3 c :
  c = c / 4096 * 4096 + (c / 64) mod 64 * 64 + c mod 64
  /\ (c / 64) mod 64 < 64 /\ c mod 64 < 64.
Proof.
  destruct (sextet_split2 c) as [H1 H2]. destruct (sextet_split2 (c / 64)) as [H3 H4].
  replace (c / 64 / 64) with (c / 4096) in H3
    by (rewrite N.Div0.div_div; reflexivity).
  hide_divmod. lia.
Qed.

Lemma sextet_split4 c :
  c = c / 262144 * 262144 + (c / 4096) mod 64 * 4096 + (c / 64) mod 64 * 64 + c mod 64
  /\ (c / 4096) mod 64 < 64 /\ (c / 64) mod 64 < 64 /\ c mod 64 < 64.
Proof.
  destruct (sextet_split3 c) as (H1 & H2 & H3). destruct (sextet_split2 (c / 4096)) as [H4 H5].
  replace (c / 4096 / 64) with (c / 262144) in H4
    by (rewrite N.Div0.div_div; reflexivity).
  hide_divmod. lia.
Qed.

Lemma is_cont_range b : is_cont b = true -> 128 <= Byte.to_N b <= 191.
Proof. unfold is_cont. cbv zeta. rewrite andb_true_iff, !N.leb_le. lia. Qed.

Lemma utf8_encode_cp_1 b0 :
  Byte.to_N b0 < 128 -> utf8_encode_cp (Byte.to_N b0) = Some [b0].
Proof.
  intros H0. unfold utf8_encode_cp.
  replace (Byte.to_N b0 <? 128) with true by (symmetry; apply N.ltb_lt; lia).
  rewrite byte_of_to_N. reflexivity.
Qed.

Lemma utf8_encode_cp_2 b0 b1 :
  194 <= Byte.to_N b0 <= 223 -> is_cont b1 = true ->
  utf8_encode_cp ((Byte.to_N b0 - 192) * 64 + cont_bits b1) = Some [b0; b1].
Proof.
  intros H0 H1%is_cont_range. unfold utf8_encode_cp, cont_bits.
  destruct (sextet_join2 (Byte.to_N b0 - 192) (Byte.to_N b1 - 128) ltac:(lia))
    as [Hd Hm].
  set (c := (Byte.to_N b0 - 192) * 64 + (Byte.to_N b1 - 128)) in *.
  replace (c <? 128) with false by (symmetry; apply N.ltb_ge; subst c; lia).
  replace (c <? 2048) with true by (symmetry; apply N.ltb_lt; subst c; lia).
  rewrite Hd, Hm.
  replace (192 + (Byte.to_N b0 - 192)) with (Byte.to_N b0) by lia.
  replace (128 + (Byte.to_N b1 - 128)) with (Byte.to_N b1) by lia.
  rewrite !byte_of_to_N. reflexivity.
Qed.

Lemma utf8_encode_cp_3 b0 b1 b2 :
  let c := (Byte.to_N b0 - 224) * 4096 + cont_bits b1 * 64 + cont_bits b2 in
  224 <= Byte.to_N b0 <= 239 -> is_cont b1 = true -> is_cont b2 = true ->
  2048 <= c -> ~ (55296 <= c <= 57343) ->
  utf8_encode_cp c = Some [b0; b1; b2].
Proof.
  intros c H0 H1%is_cont_range H2%is_cont_range Hlo Hsur.
  unfold cont_bits in c. unfold utf8_encode_cp.
  destruct (sextet_join3 (Byte.to_N b0 - 224) (Byte.to_N b1 - 128)
              (Byte.to_N b2 - 128) ltac:(lia) ltac:(lia)) as (Hd & Hm1 & Hm2).
  fold c in Hd, Hm1, Hm2.
  replace (c <? 128) with false by (symmetry; apply N.ltb_ge; lia).
  replace (c <? 2048) with false by (symmetry; apply N.ltb_ge; lia).
  replace (c <? 65536) with true by (symmetry; apply N.ltb_lt; subst c; lia).
  replace ((55296 <=? c) && (c <=? 57343)) with false
    by (symmetry; apply andb_false_iff; rewrite N.leb_gt, N.leb_gt; lia).
  rewrite Hd, Hm1, Hm2.
  replace (224 + (Byte.to_N b0 - 224)) with (Byte.to_N b0) by lia.
  replace (128 + (Byte.to_N b1 - 128)) with (Byte.to_N b1) by lia.
  replace (128 + (Byte.to_N b2 - 128)) with (Byte.to_N b2) by lia.
  rewrite !byte_of_to_N. reflexivity.
Qed.

Lemma utf8_encode_cp_4 b0 b1 b2 b3 :
  let c := (Byte.to_N b0 - 240) * 262144 + cont_bits b1 * 4096
           + cont_bits b2 * 64 + cont_bits b3 in
  240 <= Byte.to_N b0 <= 244 ->
  is_cont b1 = true -> is_cont b2 = true -> is_cont b3 = true ->
  65536 <= c -> c < 1114112 ->
  utf8_encode_cp c = Some [b0; b1; b2; b3].
Proof.
  intros c H0 H1%is_cont_range H2%is_cont_range H3%is_cont_range Hlo Hhi.
  unfold cont_bits in c. unfold utf8_encode_cp.
  destruct (sextet_join4 (Byte.to_N b0 - 240) (Byte.to_N b1 - 128)
              (Byte.to_N b2 - 128) (Byte.to_N b3 - 128)
              ltac:(lia) ltac:(lia) ltac:(lia)) as (Hd & Hm1 & Hm2 & Hm3).
  fold c in Hd, Hm1, Hm2, Hm3.
  replace (c <? 128) with false by (symmetry; apply N.ltb_ge; lia).
  replace (c <? 2048) with false by (symmetry; apply N.ltb_ge; lia).
  replace (c <? 65536) with false by (symmetry; apply N.ltb_ge; lia).
  replace (c <? 1114112) with true by (symmetry; apply N.ltb_lt; lia).
  rewrite Hd, Hm1, Hm2, Hm3.
  replace (240 + (Byte.to_N b0 - 240)) with (Byte.to_N b0) by lia.
  replace (128 + (Byte.to_N b1 - 128)) with (Byte.to_N b1) by lia.
  replace (128 + (Byte.to_N b2 - 128)) with (Byte.to_N b2) by lia.
  replace (128 + (Byte.to_N b3 - 128)) with (Byte.to_N b3) by lia.
  rewrite !byte_of_to_N. reflexivity.
Qed.

(** What decodes can be encoded, and gives the bytes back. *)
Lemma utf8_decode_encode : forall n bs s,
  (length bs <= n)%nat -> utf8_decode bs = Some s -> utf8_encode s = Some bs.
Proof.
  induction n as [|n IH]; intros bs s Hlen Hdec.
  - destruct bs; [|simpl in Hlen; lia]. injection Hdec as <-. reflexivity.
  - destruct bs as [|b0 t0]; [injection Hdec as <-; reflexivity|].
    simpl in Hlen. cbn [utf8_decode] in Hdec. cbv zeta in Hdec.
    destruct (Byte.to_N b0 <? 128) eqn:E1.
    { apply N.ltb_lt in E1.
      destruct (utf8_decode t0) as [s0|] eqn:Hd; [|discriminate].
      injection Hdec as <-. cbn [utf8_encode].
      rewrite (utf8_encode_cp_1 b0 E1), (IH t0 s0) by (lia || assumption).
      reflexivity. }
    destruct ((194 <=? Byte.to_N b0) && (Byte.to_N b0 <=? 223)) eqn:E2.
    { apply andb_true_iff in E2 as [Ea%N.leb_le Eb%N.leb_le].
      destruct t0 as [|b1 t1]; [discriminate|]. simpl in Hlen.
      destruct (is_cont b1) eqn:C1; [|discriminate].
      destruct (utf8_decode t1) as [s0|] eqn:Hd; [|discriminate].
      injection Hdec as <-. cbn [utf8_encode].
      rewrite (utf8_encode_cp_2 b0 b1 (conj Ea Eb) C1), (IH t1 s0)
        by (lia || assumption).
      reflexivity. }
    destruct ((224 <=? Byte.to_N b0) && (Byte.to_N b0 <=? 239)) eqn:E3.
    { apply andb_true_iff in E3 as [Ea%N.leb_le Eb%N.leb_le].
      destruct t0 as [|b1 [|b2 t2]]; try discriminate. simpl in Hlen.
      match type of Hdec with (if ?c then _ else _) = _ =>
        destruct c eqn:Hc; [|discriminate] end.
      apply andb_true_iff in Hc as [Hc Hsur].
      apply andb_true_iff in Hc as [Hc Hlo].
      apply andb_true_iff in Hc as [C1 C2].
      apply N.leb_le in Hlo. apply negb_true_iff, andb_false_iff in Hsur.
      rewrite !N.leb_gt in Hsur.
      destruct (utf8_decode t2) as [s0|] eqn:Hd; [|discriminate].
      injection Hdec as <-. cbn [utf8_encode].
      rewrite (utf8_encode_cp_3 b0 b1 b2 (conj Ea Eb) C1 C2 Hlo), (IH t2 s0)
        by (lia || assumption).
      reflexivity. }
    destruct ((240 <=? Byte.to_N b0) && (Byte.to_N b0 <=? 244)) eqn:E4;
      [|discriminate].
    apply andb_true_iff in E4 as [Ea%N.leb_le Eb%N.leb_le].
    destruct t0 as [|b1 [|b2 [|b3 t3]]]; try discriminate. simpl in Hlen.
    match type of Hdec with (if ?c then _ else _) = _ =>
      destruct c eqn:Hc; [|discriminate] end.
    apply andb_true_iff in Hc as [Hc Hhi].
    apply andb_true_iff in Hc as [Hc Hlo].
    apply andb_true_iff in Hc as [Hc C3].
    apply andb_true_iff in Hc as [C1 C2].
    apply N.leb_le in Hlo. apply N.ltb_lt in Hhi.
    destruct (utf8_decode t3) as [s0|] eqn:Hd; [|discriminate].
    injection Hdec as <-. cbn [utf8_encode].
    rewrite (utf8_encode_cp_4 b0 b1 b2 b3 (conj Ea Eb) C1 C2 C3 Hlo Hhi), (IH t3 s0)
      by (lia || assumption).
    reflexivity.
Qed.

Lemma is_cont_intro b : 128 <= Byte.to_N b <= 191 -> is_cont b = true.
Proof. intros Hb. unfold is_cont. cbv zeta. rewrite andb_true_iff, !N.leb_le. lia. Qed.

Lemma utf8_decode_1 b0 rest :
  Byte.to_N b0 < 128 ->
  utf8_decode (b0 :: rest) = cons (Byte.to_N b0) <$> utf8_decode rest.
Proof.
  intros H0. cbn [utf8_decode]. cbv zeta.
  destruct (N.ltb_spec (Byte.to_N b0) 128); [reflexivity | lia].
Qed.

Lemma utf8_decode_2 b0 b1 rest :
  194 <= Byte.to_N b0 <= 223 -> is_cont b1 = true ->
  utf8_decode (b0 :: b1 :: rest)
  = cons ((Byte.to_N b0 - 192) * 64 + cont_bits b1) <$> utf8_decode rest.
Proof.
  intros H0 H1. cbn [utf8_decode]. cbv zeta.
  destruct (N.ltb_spec (Byte.to_N b0) 128); [lia|].
  destruct (N.leb_spec 194 (Byte.to_N b0)); [|lia].
  destruct (N.leb_spec (Byte.to_N b0) 223); [|lia].
  cbn [andb]. rewrite H1. reflexivity.
Qed.

Lemma utf8_decode_3 b0 b1 b2 rest :
  let c := (Byte.to_N b0 - 224) * 4096 + cont_bits b1 * 64 + cont_bits b2 in
  224 <= Byte.to_N b0 <= 239 -> is_cont b1 = true -> is_cont b2 = true ->
  2048 <= c -> ~ (55296 <= c <= 57343) ->
  utf8_decode (b0 :: b1 :: b2 :: rest) = cons c <$> utf8_decode rest.
Proof.
  intros c H0 H1 H2 Hlo Hsur. cbn [utf8_decode]. cbv zeta. fold c.
  destruct (N.ltb_spec (Byte.to_N b0) 128); [lia|].
  destruct (N.leb_spec 194 (Byte.to_N b0)); [|lia].
  destruct (N.leb_spec (Byte.to_N b0) 223); [lia|].
  destruct (N.leb_spec 224 (Byte.to_N b0)); [|lia].
  destruct (N.leb_spec (Byte.to_N b0) 239); [|lia].
  cbn [andb]. rewrite H1, H2.
  destruct (N.leb_spec 2048 c); [|lia].
  destruct (N.leb_spec 55296 c); destruct (N.leb_spec c 57343);
    cbn [andb negb]; try reflexivity; lia.
Qed.

Lemma utf8_decode_4 b0 b1 b2 b3 rest :
  let c := (Byte.to_N b0 - 240) * 262144 + cont_bits b1 * 4096
           + cont_bits b2 * 64 + cont_bits b3 in
  240 <= Byte.to_N b0 <= 244 ->
  is_cont b1 = true -> is_cont b2 = true -> is_cont b3 = true ->
  65536 <= c -> c < 1114112 ->
  utf8_decode (b0 :: b1 :: b2 :: b3 :: rest) = cons c <$> utf8_decode rest.
Proof.
  intros c H0 H1 H2 H3 Hlo Hhi. cbn [utf8_decode]. cbv zeta. fold c.
  destruct (N.ltb_spec (Byte.to_N b0) 128); [lia|].
  destruct (N.leb_spec 194 (Byte.to_N b0)); [|lia].
  destruct (N.leb_spec (Byte.to_N b0) 223); [lia|].
  destruct (N.leb_spec 224 (Byte.to_N b0)); [|lia].
  destruct (N.leb_spec (Byte.to_N b0) 239); [lia|].
  destruct (N.leb_spec 240 (Byte.to_N b0)); [|lia].
  destruct (N.leb_spec (Byte.to_N b0) 244); [|lia].
  cbn [andb]. rewrite H1, H2, H3.
  destruct (N.leb_spec 65536 c); [|lia].
  destruct (N.ltb_spec c 1114112); [|lia].
  reflexivity.
Qed.

(** The bytes of one encoded code point decode to it. *)
Lemma utf8_decode_cp c bs rest :
  utf8_encode_cp c = Some bs ->
  utf8_decode (bs ++ rest) = cons c <$> utf8_decode rest.
Proof.
  unfold utf8_encode_cp.
  destruct (N.ltb_spec c 128) as [H1|H1].
  { intros [= <-]. cbn [app]. rewrite utf8_decode_1; rewrite to_N_byte_of_N by lia;
      [reflexivity | lia]. }
  destruct (N.ltb_spec c 2048) as [H2|H2].
  { intros [= <-]. cbn [app].
    destruct (sextet_split2 c) as (Hc & Hr). hide_divmod.
    rewrite utf8_decode_2; unfold cont_bits; rewrite ?to_N_byte_of_N by lia.
    - f_equal. f_equal. lia.
    - lia.
    - apply is_cont_intro. rewrite to_N_byte_of_N by lia. lia. }
  destruct (N.ltb_spec c 65536) as [H3|H3].
  { destruct (N.leb_spec 55296 c) as [H4|H4];
      destruct (N.leb_spec c 57343) as [H5|H5]; cbn [andb]; try discriminate;
      intros [= <-]; cbn [app];
      destruct (sextet_split3 c) as (Hc & Hr1 & Hr2); hide_divmod;
      (rewrite utf8_decode_3; unfold cont_bits; rewrite ?to_N_byte_of_N by lia;
       [ f_equal; f_equal; lia | lia
       | apply is_cont_intro; rewrite to_N_byte_of_N by lia; lia
       | apply is_cont_intro; rewrite to_N_byte_of_N by lia; lia
       | lia | lia ]). }
  destruct (N.ltb_spec c 1114112) as [H4|H4]; [|discriminate].
  intros [= <-]. cbn [app].
  destruct (sextet_split4 c) as (Hc & Hr1 & Hr2 & Hr3). hide_divmod.
  rewrite utf8_decode_4; unfold cont_bits; rewrite ?to_N_byte_of_N by lia.
  - f_equal. f_equal. lia.
  - lia.
  - apply is_cont_intro. rewrite to_N_byte_of_N by lia. lia.
  - apply is_cont_intro. rewrite to_N_byte_of_N by lia. lia.
  - apply is_cont_intro. rewrite to_N_byte_of_N by lia. lia.
  - lia.
  - lia.
Qed.

(** What encodes decodes to itself. *)
Lemma utf8_encode_decode : forall s bs,
  utf8_encode s = Some bs -> utf8_decode bs = Some s.
Proof.
  induction s as [|c s IH]; intros bs; cbn [utf8_encode].
  - intros [= <-]. reflexivity.
  - destruct (utf8_encode_cp c) as [b|] eqn:Hc; [|discriminate].
    destruct (utf8_encode s) as [rest|] eqn:Hs; [|discriminate].
    intros [= <-]. rewrite (utf8_decode_cp c b rest Hc), (IH rest eq_refl).
    reflexivity.
Qed.

(** The code points that do not encode. *)
Lemma utf8_encode_None s :
  utf8_encode s = None <-> exists c, c ∈ s /\ unencodable c.
Proof.
  induction s as [|c s IH]; cbn [utf8_encode].
  - split; [discriminate | intros (c & Hin & _); inversion Hin].
  - destruct (utf8_encode_cp c) as [b|] eqn:Hc.
    + destruct (utf8_encode s) as [rest|] eqn:Hs.
      * split; [discriminate|]. intros (d & Hin & Hd).
        apply elem_of_cons in Hin as [-> | Hin].
        -- exfalso. revert Hc. unfold utf8_encode_cp, unencodable in *.
           destruct (N.ltb_spec c 128); [lia|].
           destruct (N.ltb_spec c 2048); [lia|].
           destruct (N.ltb_spec c 65536).
           ++ destruct (N.leb_spec 55296 c); destruct (N.leb_spec c 57343);
                cbn [andb]; try discriminate; lia.
           ++ destruct (N.ltb_spec c 1114112); [lia | discriminate].
        -- assert (Some rest = None) as Habs by (apply IH; eauto).
           discriminate.
      * split; [|reflexivity]. intros _.
        destruct (proj1 IH eq_refl) as (d & Hin & Hd).
        exists d. split; [right; exact Hin | exact Hd].
    + split; [|reflexivity]. intros _. exists c. split; [left|].
      revert Hc. unfold utf8_encode_cp, unencodable.
      destruct (N.ltb_spec c 128); [discriminate|].
      destruct (N.ltb_spec c 2048); [discriminate|].
      destruct (N.ltb_spec c 65536).
      * destruct (N.leb_spec 55296 c); destruct (N.leb_spec c 57343);
          cbn [andb]; try discriminate; lia.
      * destruct (N.ltb_spec c 1114112); [discriminate | lia].
Qed.

(** ** The placement executable *)

Lemma lstrip_suffix s : exists sp, s = sp ++ lstrip s /\ forallb is_space sp = true.
Proof.
  induction s as [|c s (sp & Heq & Hsp)]; simpl.
  - exists []. auto.
  - destruct (is_space c) eqn:Hc.
    + exists (c :: sp). simpl. rewrite Hc, Hsp. rewrite Heq at 1. auto.
    + exists []. auto.
Qed.

Lemma lstrip_head s b t : lstrip s = b :: t -> is_space b = false.
Proof.
  induction s as [|c s IH]; simpl; [discriminate|].
  destruct (is_space c) eqn:Hc; [exact IH|]. intros [= <- _]. exact Hc.
Qed.

(** [strip] leaves no white space at either end. *)
Lemma strip_ends s :
  (forall b t, strip s = b :: t -> is_space b = false)
  /\ (forall t b, strip s = t ++ [b] -> is_space b = false).
Proof.
  unfold strip, rstrip. split.
  - intros b t Heq.
    destruct (lstrip_suffix (rev (lstrip s))) as (sp & Hrev & _).
    apply (f_equal (@rev byte)) in Hrev. rewrite rev_involutive, rev_app_distr in Hrev.
    rewrite Heq in Hrev. simpl in Hrev. apply (lstrip_head s b _ Hrev).
  - intros t b Heq. apply (f_equal (@rev byte)) in Heq.
    rewrite rev_involutive, rev_app_distr in Heq. simpl in Heq.
    apply (lstrip_head _ b _ Heq).
Qed.

(** [strip] takes white space away from both ends and nothing else. *)
Lemma strip_around s :
  exists l r, s = l ++ strip s ++ r
              /\ forallb is_space l = true /\ forallb is_space r = true.
Proof.
  destruct (lstrip_suffix s) as (l & Hl & Hls).
  destruct (lstrip_suffix (rev (lstrip s))) as (r & Hr & Hrs).
  exists l, (rev r). split; [|split].
  - unfold strip, rstrip. rewrite Hl at 1. f_equal.
    apply (f_equal (@rev byte)) in Hr. rewrite rev_involutive, rev_app_distr in Hr.
    exact Hr.
  - exact Hls.
  - apply forallb_forall. intros x Hx. apply in_rev in Hx.
    rewrite forallb_forall in Hrs. apply Hrs. exact Hx.
Qed.

Section Placement.
Context `{Host}.

(** The arguments of the placement call that can fail to pass are the
    file name and the project directory. *)
Lemma dir_hier_path_arg_error filename e :
  arg_error [lit "bin/dir_hier_path"; filename] BOINC_PROJECT_DIR = Some e <->
  fs_error filename = Some e
  \/ (fs_error filename = None /\ fs_error BOINC_PROJECT_DIR = Some e).
Proof.
  unfold arg_error. cbn [first_error].
  change (fs_error (lit "bin/dir_hier_path")) with (@None exn).
  destruct (fs_error filename) as [e0|].
  - split; [intros [= <-]; auto | intros [[= <-] | [? _]]; [reflexivity | discriminate]].
  - split; [intros He; auto | intros [? | [_ He]]; [discriminate | exact He]].
Qed.

(** How [dir_hier_path] fails. *)
Lemma dir_hier_path_raises filename w e w1 :
  dir_hier_path filename w = (Raise e, w1) ->
  (exists rc out,
     rc <> 0%Z
     /\ run [lit "bin/dir_hier_path"; filename] BOINC_PROJECT_DIR false w
        = Exited rc out
     /\ e = CalledProcessError rc out)
  \/ (run [lit "bin/dir_hier_path"; filename] BOINC_PROJECT_DIR false w
      = NotStarted /\ e = OSError)
  \/ (exists out,
        run [lit "bin/dir_hier_path"; filename] BOINC_PROJECT_DIR false w
        = Exited 0 out
        /\ utf8_decode (strip out) = None /\ e = UnicodeDecodeError)
  \/ (arg_error [lit "bin/dir_hier_path"; filename] BOINC_PROJECT_DIR = Some e
      /\ (e = UnicodeEncodeError \/ e = ValueError)).
Proof.
  unfold dir_hier_path. rewrite bind_run. unfold check_output.
  destruct (run _ _ _ w) as [[|rc|rc] out| |e0] eqn:Hrun.
  - destruct (utf8_decode (strip out)) as [path|] eqn:Hdec; [discriminate|].
    intros [= <- _]. right. right. left. exists out. auto.
  - intros [= <- _]. left. exists (Z.pos rc), out. repeat split. discriminate.
  - intros [= <- _]. left. exists (Z.neg rc), out. repeat split. discriminate.
  - intros [= <- _]. right. left. auto.
  - intros [= <- _]. right. right. right. apply run_Refused in Hrun.
    split; [exact Hrun | apply (arg_error_cases _ _ _ Hrun)].
Qed.

(** X3. Every way [dir_hier_path] can end. It calls
    [subprocess.check_output] once and touches no file. When the file name
    or the project directory cannot be passed to a process (a surrogate
    that the file system encoding refuses: [UnicodeEncodeError]; a NUL:
    [ValueError]) the call raises that error and no process is started.
    Otherwise it returns only when the executable exits with code zero,
    and then the path returned, encoded as UTF-8, is the output with the
    white space at both ends, and nothing else, taken away (so the newline
    the tool prints is no part of the path). A non-zero exit code is
    raised as [CalledProcessError] with the code and the output, an
    executable that cannot be started as [OSError], and output that is not
    UTF-8 as [UnicodeDecodeError]. *)
Theorem dir_hier_path_outcome filename w r w1 :
  dir_hier_path filename w = (r, w1) ->
  w1 = emit (Spawn [lit "bin/dir_hier_path"; filename] BOINC_PROJECT_DIR) w
  /\ match r with
     | Return path =>
         fs_error filename = None /\ fs_error BOINC_PROJECT_DIR = None
         /\ exists out,
              run [lit "bin/dir_hier_path"; filename] BOINC_PROJECT_DIR false w
              = Exited 0 out
              /\ utf8_encode path = Some (strip out)
              /\ (exists l r, out = l ++ strip out ++ r
                              /\ forallb is_space l = true
                              /\ forallb is_space r = true)
              /\ (forall b t, strip out = b :: t -> is_space b = false)
              /\ (forall t b, strip out = t ++ [b] -> is_space b = false)
     | Raise e =>
         (fs_error filename = Some e /\ (e = UnicodeEncodeError \/ e = ValueError))
         \/ (fs_error filename = None /\ fs_error BOINC_PROJECT_DIR = Some e
             /\ (e = UnicodeEncodeError \/ e = ValueError))
         \/ (exists rc out,
               rc <> 0%Z
               /\ run [lit "bin/dir_hier_path"; filename] BOINC_PROJECT_DIR false w
                  = Exited rc out
               /\ e = CalledProcessError rc out)
         \/ (run [lit "bin/dir_hier_path"; filename] BOINC_PROJECT_DIR false w
             = NotStarted /\ e = OSError)
         \/ (exists out,
               run [lit "bin/dir_hier_path"; filename] BOINC_PROJECT_DIR false w
               = Exited 0 out
               /\ utf8_decode (strip out) = None /\ e = UnicodeDecodeError)
     end.
Proof.
  intros Hd. split; [apply (dir_hier_path_world _ _ _ _ Hd)|].
  destruct r as [path|e].
  - revert Hd. unfold dir_hier_path. rewrite bind_run. unfold check_output.
    destruct (run _ _ _ w) as [[|rc|rc] out| |e0] eqn:Hrun; try discriminate.
    destruct (utf8_decode (strip out)) as [p|] eqn:Hdec; [|discriminate].
    intros [= <- _].
    assert (arg_error [lit "bin/dir_hier_path"; filename] BOINC_PROJECT_DIR = None)
      as Hargs.
    { destruct (arg_error _ BOINC_PROJECT_DIR) as [e0|] eqn:Ha; [|reflexivity].
      apply run_Refused with (merged := false) (w := w) in Ha. congruence. }
    assert (fs_error filename = None /\ fs_error BOINC_PROJECT_DIR = None) as [Hf Hc].
    { destruct (fs_error filename) as [e0|] eqn:Hf.
      - assert (arg_error [lit "bin/dir_hier_path"; filename] BOINC_PROJECT_DIR
                = Some e0) as Ha by (apply dir_hier_path_arg_error; auto).
        congruence.
      - destruct (fs_error BOINC_PROJECT_DIR) as [e0|] eqn:Hc; [|auto].
        assert (arg_error [lit "bin/dir_hier_path"; filename] BOINC_PROJECT_DIR
                = Some e0) as Ha by (apply dir_hier_path_arg_error; auto).
        congruence. }
    split; [exact Hf|]. split; [exact Hc|].
    exists out. split; [reflexivity|]. split; [|split].
    + apply (utf8_decode_encode (length (strip out))); [lia | exact Hdec].
    + apply strip_around.
    + apply strip_ends.
  - destruct (dir_hier_path_raises _ _ _ _ Hd)
      as [Hc | [Hc | [Hc | [Ha He]]]]; auto.
    apply dir_hier_path_arg_error in Ha as [Hf | [Hf Hc]]; auto.
Qed.

End Placement.

Lemma dir_hier_path_outcome_witness :
  let host := Fixture.stub_host NotStarted in
  utf8_encode (lit "/srv/boinc/download/3f/input_a1")
  = Some (strip (blit "/srv/boinc/download/3f/input_a1" ++ [x0a])).
Proof.
  intros host.
  pose proof (dir_hier_path_outcome (H := host) (lit "input_a1") Fixture.empty_world
                (Return (lit "/srv/boinc/download/3f/input_a1"))
                _ eq_refl) as [_ (_ & _ & out & Hrun & Henc & _)].
  injection Hrun as <-. exact Henc.
Defined.

(** A file name with a NUL: the call is refused with [ValueError], the
    executable is not consulted. *)
Example dir_hier_path_nul :
  fst (dir_hier_path (H := Fixture.stub_host NotStarted) (lit "input_" ++ [0])
         Fixture.empty_world)
  = Raise ValueError.
Proof. reflexivity. Qed.

(** ** Staging, further *)



(** X5. Names do not clash. When the digests have one length, as
    hexadecimal digests have, two calls build the same file name only for
    the same prefix and the same digest: a seed and a command line never
    share a name, and neither do two contents with different digests. *)
Theorem filename_for_contents_inj `{Host} prefix1 contents1 prefix2 contents2 :
  length (md5_hexdigest contents1) = length (md5_hexdigest contents2) ->
  _filename_for_contents prefix1 contents1 = _filename_for_contents prefix2 contents2 ->
  prefix1 = prefix2 /\ md5_hexdigest contents1 = md5_hexdigest contents2.
Proof.
  unfold _filename_for_contents. cbv zeta. intros Hlen Heq.
  apply app_inj_2 in Heq as [Hp Hh].
  - split; [exact Hp|]. injection Hh as Hh. exact Hh.
  - change (lit "_") with [95]. simpl. rewrite Hlen. reflexivity.
Qed.

Lemma filename_for_contents_inj_witness :
  let host := Fixture.stub_host NotStarted in
  _filename_for_contents (H := host) (lit "input") (blit "ab")
  = _filename_for_contents (H := host) (lit "input") (blit "ba")
  /\ Fixture.stub_hexdigest (blit "ab") = Fixture.stub_hexdigest (blit "ba").
Proof.
  intros host. split; [reflexivity|].
  apply (filename_for_contents_inj (H := host) (lit "input") (blit "ab")
           (lit "input") (blit "ba") eq_refl eq_refl).
Defined.

(** X6. The download path of a staged file. With a placement executable
    that is a function of the file name, once [stage_file prefix contents]
    has returned [path], [filename_to_download_path], given the name of
    those contents, returns [path] made relative by
    [clean_download_path]; it calls the executable once, touches no file
    and its result holds no [/download/]. *)
Theorem filename_to_download_path_staged `{Host} prefix contents w0 path w1 w :
  oracle_deterministic ->
  stage_file prefix contents w0 = (Return path, w1) ->
  filename_to_download_path (_filename_for_contents prefix contents) w
  = (Return (clean_download_path path),
     emit (Spawn [lit "bin/dir_hier_path"; _filename_for_contents prefix contents]
                 BOINC_PROJECT_DIR) w)
  /\ ~ occurs_in (lit "/download/") (clean_download_path path).
Proof.
  intros Hdet Hfirst. split; [|apply clean_download_path_free].
  pose proof (stage_file_resolved _ _ _ _ _ Hfirst) as Hres.
  unfold filename_to_download_path. rewrite bind_run.
  destruct (dir_hier_path (_filename_for_contents prefix contents) w) as [r w2] eqn:Hd.
  pose proof (dir_hier_path_deterministic (_filename_for_contents prefix contents)
                w0 w Hdet) as Hsame.
  rewrite Hd, Hres in Hsame. simpl in Hsame. subst r.
  apply dir_hier_path_world in Hd. subst w2. reflexivity.
Qed.

Lemma filename_to_download_path_staged_witness :
  let host := Fixture.stub_host NotStarted in
  fst (filename_to_download_path (H := host) (lit "input_a1") Fixture.empty_world)
  = Return (lit "3f/input_a1").
Proof.
  intros host.
  assert (oracle_deterministic (H := host)) as Hdet
    by (intros filename wa wb; reflexivity).
  assert (stage_file (H := host) (lit "input") (blit "seed") Fixture.empty_world
          = (Return (lit "/srv/boinc/download/3f/input_a1"),
             snd (stage_file (H := host) (lit "input") (blit "seed") Fixture.empty_world)))
    as Hfirst by (vm_compute; reflexivity).
  pose proof (proj1 (filename_to_download_path_staged (H := host) (lit "input")
                       (blit "seed") Fixture.empty_world _ _ Fixture.empty_world
                       Hdet Hfirst)) as Hx.
  change (_filename_for_contents (H := host) (lit "input") (blit "seed"))
    with (lit "input_a1") in Hx.
  rewrite Hx. reflexivity.
Defined.

(** ** Submission, further *)

Section SubmitFacts.
Context `{Host}.

(** [submit_job] with the monad unfolded. *)
Lemma submit_job_run appname cmdline seed_file seed_contents w :
  submit_job appname cmdline seed_file seed_contents w =
  if truthy seed_file && truthy seed_contents then
    (Raise (InternalError
              (lit "Only one of seed_file and seed_contents can be specified")), w)
  else
    match (if truthy seed_contents
           then stage_file (lit "input") (default [] seed_contents) w
           else if negb (truthy seed_file)
                then (Raise (InternalError (lit "No seed specified")), w)
                else (Return (default [] seed_file), w)) with
    | (Raise e, w1) => (Raise e, w1)
    | (Return seed, w1) =>
        match utf8_encode cmdline with
        | None => (Raise UnicodeEncodeError, w1)
        | Some cmd_contents =>
            match stage_file (lit "cmdline") cmd_contents w1 with
            | (Raise e, w2) => (Raise e, w2)
            | (Return cmd_path, w2) => create_work_outcome appname seed cmd_path w2
            end
        end
    end.
Proof.
  unfold submit_job. destruct (truthy seed_file && truthy seed_contents); [reflexivity|].
  rewrite bind_run.
  assert ((if truthy seed_contents
           then stage_file (lit "input") (default [] seed_contents)
           else if negb (truthy seed_file)
                then raise (InternalError (lit "No seed specified"))
                else ret (default [] seed_file)) w
          = (if truthy seed_contents
             then stage_file (lit "input") (default [] seed_contents) w
             else if negb (truthy seed_file)
                  then (Raise (InternalError (lit "No seed specified")), w)
                  else (Return (default [] seed_file), w))) as ->.
  { destruct (truthy seed_contents); [reflexivity|].
    destruct (negb (truthy seed_file)); reflexivity. }
  destruct (if truthy seed_contents
            then stage_file (lit "input") (default [] seed_contents) w
            else if negb (truthy seed_file)
                 then (Raise (InternalError (lit "No seed specified")), w)
                 else (Return (default [] seed_file), w)) as [[seed|e] w1];
    [|reflexivity].
  rewrite bind_run. destruct (utf8_encode cmdline) as [cc|]; [|reflexivity].
  cbn [from_option ret]. rewrite bind_run.
  destruct (stage_file (lit "cmdline") cc w1) as [[cp|e] w2]; [|reflexivity].
  apply check_output_create_work.
Qed.

Lemma stage_file_keeps prefix contents w r w' path f :
  stage_file prefix contents w = (r, w') ->
  store w !! path = Some f -> store w' !! path = Some f.
Proof.
  intros Hs Hf.
  destruct (stage_file_store _ _ _ _ _ Hs) as [-> | (p & _ & Hfree & ->)]; [exact Hf|].
  rewrite lookup_insert_ne; [exact Hf|]. intros ->. congruence.
Qed.


End SubmitFacts.



(** X8. A command line that cannot be encoded (it holds a surrogate, or a
    value that is no code point) makes [submit_job] raise
    [UnicodeEncodeError] without starting [bin/create_work]. With inline
    seed contents this happens after the seed has been staged: the world
    left is the one [stage_file] left. With a seed file nothing has
    happened at all. *)
Theorem submit_job_unencodable `{Host} appname cmdline w c :
  c ∈ cmdline -> unencodable c ->
  (forall seed_contents seed w1,
     seed_contents <> [] ->
     stage_file (lit "input") seed_contents w = (Return seed, w1) ->
     submit_job appname cmdline None (Some seed_contents) w
     = (Raise UnicodeEncodeError, w1))
  /\ (forall seed_file,
        seed_file <> [] ->
        submit_job appname cmdline (Some seed_file) None w
        = (Raise UnicodeEncodeError, w)).
Proof.
  intros Hin Hc.
  assert (utf8_encode cmdline = None) as Henc by (apply utf8_encode_None; eauto).
  split.
  - intros seed_contents seed w1 Hne Hs. rewrite submit_job_run.
    destruct seed_contents as [|b seed_contents]; [contradiction|].
    cbn [truthy andb].
    change (default [] (Some (b :: seed_contents))) with (b :: seed_contents).
    rewrite Hs, Henc. reflexivity.
  - intros seed_file Hne. rewrite submit_job_run.
    destruct seed_file as [|b seed_file]; [contradiction|].
    cbn [truthy andb negb]. rewrite Henc. reflexivity.
Qed.

Lemma submit_job_unencodable_witness :
  let host := Fixture.stub_host (Exited 0 (blit "created workunit; foo bar, ID 42")) in
  submit_job (H := host) (lit "myapp") (lit "run" ++ [0xD800]) None (Some (blit "seed"))
             Fixture.empty_world
  = (Raise UnicodeEncodeError,
     {| store := {[ lit "/srv/boinc/download/3f/input_a1" := File (blit "seed") 493 ]};
        log := [Spawn [lit "bin/dir_hier_path"; lit "input_a1"] (lit "/srv/boinc");
                Exists (lit "/srv/boinc/download/3f/input_a1");
                Write (lit "/srv/boinc/download/3f/input_a1") (blit "seed");
                Chmod (lit "/srv/boinc/download/3f/input_a1") 493] |}).
Proof.
  intros host.
  apply (proj1 (submit_job_unencodable (H := host) (lit "myapp") (lit "run" ++ [0xD800])
                  Fixture.empty_world 0xD800 ltac:(vm_compute; set_solver)
                  ltac:(left; lia))
           (blit "seed") (lit "/srv/boinc/download/3f/input_a1")).
  - discriminate.
  - vm_compute. reflexivity.
Defined.

Section SubmitExceptions.
Context `{Host}.



End SubmitExceptions.



(** A NUL in the application name: the call of the tool is refused with
    [ValueError] after staging. *)
Example submit_job_nul_appname :
  fst (submit_job (H := Fixture.stub_host
                          (Exited 0 (blit "created workunit; foo bar, ID 42")))
         (lit "my" ++ [0] ++ lit "app") (lit "run.sh") None (Some (blit "seed"))
         Fixture.empty_world)
  = Raise ValueError.
Proof. vm_compute. reflexivity. Qed.

(** ** Lines and messages *)

Lemma splitlines_from_line : forall l cur rest,
  x0a ∉ l -> x0d ∉ l ->
  splitlines_from cur (l ++ rest) = splitlines_from (cur ++ l) rest.
Proof.
  induction l as [|c l IH]; intros cur rest Hlf Hcr.
  - rewrite app_nil_r. reflexivity.
  - apply not_elem_of_cons in Hlf as [Hc1 Hlf].
    apply not_elem_of_cons in Hcr as [Hc2 Hcr].
    change ((c :: l) ++ rest) with (c :: (l ++ rest)). cbn [splitlines_from].
    destruct (Byte.eqb c x0a) eqn:E1; [apply byte_eqb_eq in E1; congruence|].
    destruct (Byte.eqb c x0d) eqn:E2; [apply byte_eqb_eq in E2; congruence|].
    rewrite (IH (cur ++ [c]) rest Hlf Hcr), <- app_assoc. reflexivity.
Qed.

(** Output made of closed lines splits into these lines. *)
Lemma splitlines_join_lines : forall lines,
  Forall closed_line lines ->
  splitlines (join_lines lines) = map fst lines.
Proof.
  unfold splitlines.
  induction lines as [|[l eol] lines IH]; intros Hall; [reflexivity|].
  inversion Hall as [|? ? (Hlf & Hcr & Heol) Hrest]; subst. simpl in Hlf, Hcr, Heol.
  unfold join_lines. cbn [map concat fst snd]. rewrite <- app_assoc.
  rewrite (splitlines_from_line l [] _ Hlf Hcr). cbn [app].
  fold (join_lines lines).
  destruct Heol as [-> | ->]; cbn [app splitlines_from].
  - change (Byte.eqb x0a x0a) with true. cbn iota. rewrite (IH Hrest). reflexivity.
  - change (Byte.eqb x0d x0a) with false. change (Byte.eqb x0d x0d) with true.
    change (Byte.eqb x0a x0a) with true. cbn iota. rewrite (IH Hrest). reflexivity.
Qed.

Lemma splitlines_single l :
  x0a ∉ l -> x0d ∉ l -> l <> [] -> splitlines l = [l].
Proof.
  intros Hlf Hcr Hne. unfold splitlines.
  rewrite <- (app_nil_r l) at 1. rewrite (splitlines_from_line l [] [] Hlf Hcr).
  simpl. destruct l; [contradiction | reflexivity].
Qed.

(** X10. Line ends. Let the output of a tool that exits with code zero
    be made of lines closed by LF or by CR LF. Then the lines that
    [submit_job] examines are exactly these, without their ends, and the
    first one that reads [created workunit; <text>, ID <digits>] decides:
    when the digits are within the interpreter's limit on the digits of an
    integer, [submit_job] returns the number they write. *)
Theorem submit_job_closed_lines `{Host}
    appname cmdline seed_file seed_contents w seed cmd_path w2
    lines before text ds eol after :
  staged_for_submit cmdline seed_file seed_contents w seed cmd_path w2 ->
  Forall closed_line lines ->
  run (create_work_argv appname seed (basename cmd_path)) BOINC_PROJECT_DIR true w2
  = Exited 0 (join_lines lines) ->
  lines = before
          ++ (blit "created workunit; " ++ text ++ blit ", ID " ++ ds, eol) :: after ->
  Forall (fun le => ~ workunit_line le.1) before ->
  ds <> [] -> forallb is_digit ds = true ->
  over_digit_limit int_max_str_digits ds = false ->
  submit_job appname cmdline seed_file seed_contents w
  = (Return (decimal ds),
     emit (Spawn (create_work_argv appname seed (basename cmd_path))
                 BOINC_PROJECT_DIR) w2).
Proof.
  intros Hstaged Hclosed Hrun Hlines Hbefore Hne Hall Hlim.
  rewrite (submit_job_staged _ _ _ _ _ _ _ _ Hstaged).
  unfold create_work_outcome. cbv zeta. rewrite Hrun.
  rewrite (splitlines_join_lines lines Hclosed), Hlines, map_app. cbn [map fst].
  rewrite for_lines_skip.
  - rewrite (for_lines_hit _ _ _ ds); [rewrite Hlim; reflexivity|].
    apply match_workunit_exact; try assumption.
    subst lines. apply Forall_app in Hclosed as [_ Hclosed].
    apply Forall_cons in Hclosed as [(Hlf & _) _]. cbn [fst] in Hlf.
    intros Hin. apply Hlf. rewrite !elem_of_app. right. left. exact Hin.
  - apply Forall_forall. intros l (le & -> & Hin)%list_elem_of_fmap.
    rewrite Forall_forall in Hbefore. apply Hbefore. exact Hin.
Qed.

Lemma submit_job_closed_lines_witness :
  let host := Fixture.stub_host
                (Exited 0 (blit "adding job" ++ [x0d; x0a]
                           ++ blit "created workunit; foo bar, ID 0042" ++ [x0a])) in
  fst (submit_job (H := host) (lit "myapp") (lit "run.sh") None (Some (blit "seed"))
                  Fixture.empty_world)
  = Return 42.
Proof.
  intros host.
  pose (w1 := snd (stage_file (H := host) (lit "input") (blit "seed") Fixture.empty_world)).
  pose (w2 := snd (stage_file (H := host) (lit "cmdline") (blit "run.sh") w1)).
  assert (staged_for_submit (H := host) (lit "run.sh") None (Some (blit "seed"))
            Fixture.empty_world (lit "/srv/boinc/download/3f/input_a1")
            (lit "/srv/boinc/download/3f/cmdline_5e") w2) as Hstaged.
  { split; [reflexivity|]. exists w1, (blit "run.sh").
    split; [vm_compute; reflexivity|]. split; vm_compute; reflexivity. }
  assert (Forall closed_line
            [(blit "adding job", [x0d; x0a]);
             (blit "created workunit; foo bar, ID 0042", [x0a])]) as Hclosed.
  { repeat constructor; cbn [fst snd]; auto; apply not_elem_of_bytes; reflexivity. }
  assert (Forall (fun le : bytes * bytes => ~ workunit_line le.1)
            [(blit "adding job", [x0d; x0a])]) as Hbefore.
  { constructor; [|constructor]. cbn [fst]. intros (text & d & rest & Heq & _).
    vm_compute in Heq. discriminate. }
  rewrite (submit_job_closed_lines (H := host) (lit "myapp") (lit "run.sh")
             None (Some (blit "seed")) Fixture.empty_world _ _ w2
             [(blit "adding job", [x0d; x0a]);
              (blit "created workunit; foo bar, ID 0042", [x0a])]
             [(blit "adding job", [x0d; x0a])] (blit "foo bar") (blit "0042") [x0a] []
             Hstaged Hclosed eq_refl eq_refl Hbefore ltac:(discriminate) eq_refl
             eq_refl).
  reflexivity.
Defined.

Lemma repr_byte_plain b :
  plain_byte b = true ->
  repr_byte 39 b = [Byte.to_N b] /\ Byte.eqb x27 b = false
  /\ Byte.eqb b x0a = false /\ Byte.eqb b x0d = false.
Proof. destruct b; try discriminate; intros _; repeat split; reflexivity. Qed.

(** Plain output is written as it is, between [b'] and [']. *)
Lemma bytes_repr_plain out :
  forallb plain_byte out = true ->
  bytes_repr out = lit "b'" ++ map Byte.to_N out ++ lit "'".
Proof.
  intros Hall. unfold bytes_repr.
  assert (existsb (Byte.eqb x27) out = false) as Hq.
  { induction out as [|b out IH]; [reflexivity|]. simpl in *.
    apply andb_true_iff in Hall as [Hb Hall].
    destruct (repr_byte_plain b Hb) as (_ & -> & _). exact (IH Hall). }
  unfold repr_quote. rewrite Hq. cbn [andb]. cbv zeta.
  change (lit "b'") with [98; 39]. change (lit "'") with [39]. cbn [app].
  do 3 f_equal.
  induction out as [|b out IH]; [reflexivity|]. simpl in *.
  apply andb_true_iff in Hall as [Hb Hall].
  apply orb_false_iff in Hq as [_ Hq].
  destruct (repr_byte_plain b Hb) as (-> & _). rewrite (IH Hall Hq). reflexivity.
Qed.

Lemma plain_no_line_end out :
  forallb plain_byte out = true -> (x0a ∉ out) /\ (x0d ∉ out).
Proof.
  induction out as [|b out IH]; simpl.
  - intros _. split; intros Hin; inversion Hin.
  - intros [Hb Hall]%andb_true_iff. destruct (IH Hall) as [H1 H2].
    destruct (repr_byte_plain b Hb) as (_ & _ & Hlf & Hcr).
    rewrite !not_elem_of_cons. repeat split; try assumption.
    + intros <-. rewrite (proj2 (byte_eqb_eq x0a x0a) eq_refl) in Hlf. discriminate.
    + intros <-. rewrite (proj2 (byte_eqb_eq x0d x0d) eq_refl) in Hcr. discriminate.
Qed.

(** X11. What the operator reads. Let the output of the tool be plain:
    printable ASCII without single quote and backslash. When the tool
    exits with a non-zero code, the message of the [BoincError] is
    "create_work returned error: b'<output>'" with the output as it is;
    when it exits with code zero and the output is not a work unit line,
    the message is "Could not find ID in create_work output:
    b'<output>'". *)
Theorem submit_job_plain_message `{Host}
    appname cmdline seed_file seed_contents w seed cmd_path w2 out :
  staged_for_submit cmdline seed_file seed_contents w seed cmd_path w2 ->
  forallb plain_byte out = true ->
  let argv := create_work_argv appname seed (basename cmd_path) in
  (forall rc,
     rc <> 0%Z -> run argv BOINC_PROJECT_DIR true w2 = Exited rc out ->
     fst (submit_job appname cmdline seed_file seed_contents w)
     = Raise (BoincError (lit "create_work returned error: b'"
                          ++ map Byte.to_N out ++ lit "'")))
  /\ (run argv BOINC_PROJECT_DIR true w2 = Exited 0 out ->
      ~ workunit_line out ->
      fst (submit_job appname cmdline seed_file seed_contents w)
      = Raise (BoincError (lit "Could not find ID in create_work output: b'"
                           ++ map Byte.to_N out ++ lit "'"))).
Proof.
  intros Hstaged Hplain argv. split.
  - intros rc Hrc Hrun. rewrite (submit_job_staged _ _ _ _ _ _ _ _ Hstaged).
    unfold create_work_outcome. cbv zeta. fold argv. rewrite Hrun.
    rewrite (bytes_repr_plain out Hplain).
    destruct rc; [contradiction | reflexivity | reflexivity].
  - intros Hrun Hno. rewrite (submit_job_staged _ _ _ _ _ _ _ _ Hstaged).
    unfold create_work_outcome. cbv zeta. fold argv. rewrite Hrun.
    rewrite (bytes_repr_plain out Hplain).
    destruct (plain_no_line_end out Hplain) as [Hlf Hcr].
    rewrite for_lines_none; [reflexivity|].
    destruct out as [|b out]; [constructor|].
    rewrite (splitlines_single (b :: out) Hlf Hcr) by discriminate.
    constructor; [exact Hno | constructor].
Qed.

Lemma submit_job_plain_message_witness :
  let host := Fixture.stub_host (Exited 0 (blit "ok, nothing created")) in
  fst (submit_job (H := host) (lit "myapp") (lit "run.sh") None (Some (blit "seed"))
                  Fixture.empty_world)
  = Raise (BoincError
             (lit "Could not find ID in create_work output: b'ok, nothing created'")).
Proof.
  intros host.
  pose (w1 := snd (stage_file (H := host) (lit "input") (blit "seed") Fixture.empty_world)).
  pose (w2 := snd (stage_file (H := host) (lit "cmdline") (blit "run.sh") w1)).
  assert (staged_for_submit (H := host) (lit "run.sh") None (Some (blit "seed"))
            Fixture.empty_world (lit "/srv/boinc/download/3f/input_a1")
            (lit "/srv/boinc/download/3f/cmdline_5e") w2) as Hstaged.
  { split; [reflexivity|]. exists w1, (blit "run.sh").
    split; [vm_compute; reflexivity|]. split; vm_compute; reflexivity. }
  rewrite (proj2 (submit_job_plain_message (H := host) (lit "myapp") (lit "run.sh")
                    None (Some (blit "seed")) Fixture.empty_world _ _ w2
                    (blit "ok, nothing created") Hstaged eq_refl)).
  - reflexivity.
  - reflexivity.
  - intros (text & d & rest & Heq & _). vm_compute in Heq. discriminate.
Defined.

(** X12. What the tool is pointed to. When [submit_job] has staged and
    calls [bin/create_work], the file at the command path holds the UTF-8
    bytes of the command line, which decode to the command line again;
    with inline seed contents the file at the seed path holds exactly
    these contents. The call of the tool changes no file, so this is also
    the store [submit_job] leaves. *)
Theorem submit_job_staged_files `{Host}
    appname cmdline seed_file seed_contents w seed cmd_path w2 :
  staged_for_submit cmdline seed_file seed_contents w seed cmd_path w2 ->
  store (snd (submit_job appname cmdline seed_file seed_contents w)) = store w2
  /\ (exists f, store w2 !! cmd_path = Some f
                /\ utf8_encode cmdline = Some (content f)
                /\ utf8_decode (content f) = Some cmdline)
  /\ (truthy seed_contents = true ->
      exists f, store w2 !! seed = Some f /\ content f = default [] seed_contents).
Proof.
  intros Hstaged. split; [|split].
  - rewrite (submit_job_staged _ _ _ _ _ _ _ _ Hstaged).
    apply create_work_outcome_log.
  - destruct Hstaged as (_ & w1 & cc & _ & Henc & Hcmd).
    destruct (stage_file_placed _ _ _ _ _ Hcmd) as (f & Hf & Hc).
    exists f. rewrite Hc. repeat split; try assumption.
    apply utf8_encode_decode. exact Henc.
  - intros Htruthy. destruct Hstaged as (_ & w1 & cc & Hseed & _ & Hcmd).
    rewrite Htruthy in Hseed.
    destruct (stage_file_placed _ _ _ _ _ Hseed) as (f & Hf & Hc).
    exists f. split; [|exact Hc].
    destruct (stage_file_store _ _ _ _ _ Hcmd) as [-> | (p & _ & Hfree & ->)];
      [exact Hf|].
    rewrite lookup_insert_ne; [exact Hf|]. intros ->. congruence.
Qed.

Lemma submit_job_staged_files_witness :
  let host := Fixture.stub_host (Exited 0 (blit "created workunit; foo bar, ID 42")) in
  store (snd (submit_job (H := host) (lit "myapp") (lit "run.sh") None
                         (Some (blit "seed")) Fixture.empty_world))
  = {[ lit "/srv/boinc/download/3f/input_a1" := File (blit "seed") 493;
       lit "/srv/boinc/download/3f/cmdline_5e" := File (blit "run.sh") 493 ]}.
Proof.
  intros host.
  pose (w1 := snd (stage_file (H := host) (lit "input") (blit "seed") Fixture.empty_world)).
  pose (w2 := snd (stage_file (H := host) (lit "cmdline") (blit "run.sh") w1)).
  assert (staged_for_submit (H := host) (lit "run.sh") None (Some (blit "seed"))
            Fixture.empty_world (lit "/srv/boinc/download/3f/input_a1")
            (lit "/srv/boinc/download/3f/cmdline_5e") w2) as Hstaged.
  { split; [reflexivity|]. exists w1, (blit "run.sh").
    split; [vm_compute; reflexivity|]. split; vm_compute; reflexivity. }
  rewrite (proj1 (submit_job_staged_files (H := host) (lit "myapp") (lit "run.sh")
                    None (Some (blit "seed")) Fixture.empty_world _ _ w2 Hstaged)).
  vm_compute. reflexivity.
Defined.

(** ** Repeating *)

(** X13. A file with the contents already in place, however it got
    there and whatever its mode: when the derived name resolves to a path
    that holds a file with exactly the contents, [stage_file] returns the
    path after testing the path and reading the file; it writes nothing
    and does not set the mode, so the file keeps the mode it has. *)
Theorem stage_file_identical `{Host} prefix contents w path w1 f :
  dir_hier_path (_filename_for_contents prefix contents) w = (Return path, w1) ->
  store w !! path = Some f ->
  content f = contents ->
  stage_file prefix contents w =
    (Return path, {| store := store w; log := log w1 ++ [Exists path; Read path] |})
  /\ store (snd (stage_file prefix contents w)) !! path
     = Some (File contents (mode f)).
Proof.
  intros Hd Hf Hc.
  assert (stage_file prefix contents w =
          (Return path,
           {| store := store w; log := log w1 ++ [Exists path; Read path] |})) as Hs.
  { rewrite stage_file_run. cbv zeta. rewrite Hd.
    rewrite (dir_hier_path_store _ _ _ _ Hd), Hf.
    rewrite bool_decide_eq_false_2 by (intros Hne; apply Hne; exact Hc).
    reflexivity. }
  split; [exact Hs|]. rewrite Hs. cbn [snd store]. rewrite Hf.
  destruct f as [c m]. simpl in Hc. subst c. reflexivity.
Qed.

(** A file put there by other means, readable but not executable, is
    accepted and stays as it is. *)
Lemma stage_file_identical_witness :
  let host := Fixture.stub_host NotStarted in
  let w := {| store := {[ lit "/srv/boinc/download/3f/input_a1" := File (blit "seed") 420 ]};
              log := [] |} in
  stage_file (H := host) (lit "input") (blit "seed") w
  = (Return (lit "/srv/boinc/download/3f/input_a1"),
     {| store := store w;
        log := [Spawn [lit "bin/dir_hier_path"; lit "input_a1"] (lit "/srv/boinc");
                Exists (lit "/srv/boinc/download/3f/input_a1");
                Read (lit "/srv/boinc/download/3f/input_a1")] |}).
Proof.
  intros host w.
  apply (proj1 (stage_file_identical (H := host) (lit "input") (blit "seed") w
                  (lit "/srv/boinc/download/3f/input_a1")
                  (emit (Spawn [lit "bin/dir_hier_path"; lit "input_a1"] (lit "/srv/boinc")) w)
                  (File (blit "seed") 420) eq_refl eq_refl eq_refl)).
Defined.

(** X14. Submitting again. With a placement executable that is a function
    of the file name, let a call of [submit_job] have staged its files and
    called the tool. The same call in the world it left changes no file:
    none of its effects is a write or a change of mode. It does call
    [bin/create_work] again, with the same arguments. *)
Theorem submit_job_again `{Host}
    appname cmdline seed_file seed_contents w seed cmd_path w2 :
  oracle_deterministic ->
  staged_for_submit cmdline seed_file seed_contents w seed cmd_path w2 ->
  let wf := snd (submit_job appname cmdline seed_file seed_contents w) in
  let wg := snd (submit_job appname cmdline seed_file seed_contents wf) in
  store wg = store wf
  /\ exists evs,
       log wg = log wf ++ evs
       /\ existsb mutates evs = false
       /\ Spawn (create_work_argv appname seed (basename cmd_path)) BOINC_PROJECT_DIR
          ∈ evs.
Proof.
  intros Hdet Hstaged wf wg.
  assert (store wf = store w2
          /\ log wf = log w2 ++ [Spawn (create_work_argv appname seed (basename cmd_path))
                                       BOINC_PROJECT_DIR]) as [Hwf_s Hwf_l].
  { unfold wf. rewrite (submit_job_staged _ _ _ _ _ _ _ _ Hstaged).
    destruct (create_work_outcome_log appname seed cmd_path w2) as [Hl Hs]. auto. }
  destruct Hstaged as (Hvalid & w1 & cc & Hseed & Henc & Hcmd).
  pose proof (stage_file_resolved _ _ _ _ _ Hcmd) as Hcres.
  destruct (stage_file_placed _ _ _ _ _ Hcmd) as (fc & Hfc & Hcc).
  rewrite <- Hwf_s in Hfc.
  assert (exists ws evs,
            (if truthy seed_contents
             then stage_file (lit "input") (default [] seed_contents) wf
             else if negb (truthy seed_file)
                  then (Raise (InternalError (lit "No seed specified")), wf)
                  else (Return (default [] seed_file), wf)) = (Return seed, ws)
            /\ store ws = store wf /\ log ws = log wf ++ evs
            /\ existsb mutates evs = false) as (ws & evs1 & Hstep & Hws_s & Hws_l & Hev1).
  { destruct (truthy seed_contents).
    - pose proof (stage_file_resolved _ _ _ _ _ Hseed) as Hsres.
      destruct (stage_file_placed _ _ _ _ _ Hseed) as (fs & Hfs & Hsc).
      pose proof (stage_file_keeps _ _ _ _ _ _ _ Hcmd Hfs) as Hfs2.
      rewrite <- Hwf_s in Hfs2.
      eexists _, _. split; [|split; [|split]].
      + apply (stage_file_present _ _ w wf seed fs Hdet Hsres Hfs2 Hsc).
      + reflexivity.
      + reflexivity.
      + reflexivity.
    - destruct Hseed as (Ht & -> & ->). rewrite Ht. cbn [negb].
      exists wf, []. rewrite app_nil_r. auto. }
  rewrite <- Hws_s in Hfc.
  pose proof (stage_file_present _ _ w1 ws cmd_path fc Hdet Hcres Hfc Hcc) as Hcmd2.
  unfold wg. rewrite submit_job_run, Hvalid, Hstep, Henc, Hcmd2.
  destruct (create_work_outcome_log appname seed cmd_path
              {| store := store ws;
                 log := log ws
                        ++ [Spawn [lit "bin/dir_hier_path";
                                   _filename_for_contents (lit "cmdline") cc]
                                  BOINC_PROJECT_DIR;
                            Exists cmd_path; Read cmd_path] |}) as [Hl Hs].
  rewrite Hs, Hl. cbn [store log]. split; [exact Hws_s|].
  exists (evs1
          ++ [Spawn [lit "bin/dir_hier_path"; _filename_for_contents (lit "cmdline") cc]
                    BOINC_PROJECT_DIR;
              Exists cmd_path; Read cmd_path]
          ++ [Spawn (create_work_argv appname seed (basename cmd_path)) BOINC_PROJECT_DIR]).
  split; [|split].
  - rewrite Hws_l, <- !app_assoc. reflexivity.
  - rewrite existsb_app, Hev1. reflexivity.
  - rewrite !elem_of_app. right. right. left.
Qed.

Lemma submit_job_again_witness :
  let host := Fixture.stub_host (Exited 0 (blit "created workunit; foo bar, ID 42")) in
  let wf := snd (submit_job (H := host) (lit "myapp") (lit "run.sh") None
                            (Some (blit "seed")) Fixture.empty_world) in
  store (snd (submit_job (H := host) (lit "myapp") (lit "run.sh") None
                         (Some (blit "seed")) wf))
  = store wf.
Proof.
  intros host wf.
  pose (w1 := snd (stage_file (H := host) (lit "input") (blit "seed") Fixture.empty_world)).
  pose (w2 := snd (stage_file (H := host) (lit "cmdline") (blit "run.sh") w1)).
  assert (staged_for_submit (H := host) (lit "run.sh") None (Some (blit "seed"))
            Fixture.empty_world (lit "/srv/boinc/download/3f/input_a1")
            (lit "/srv/boinc/download/3f/cmdline_5e") w2) as Hstaged.
  { split; [reflexivity|]. exists w1, (blit "run.sh").
    split; [vm_compute; reflexivity|]. split; vm_compute; reflexivity. }
  assert (oracle_deterministic (H := host)) as Hdet
    by (intros filename wa wb; reflexivity).
  exact (proj1 (submit_job_again (H := host) (lit "myapp") (lit "run.sh") None
                  (Some (blit "seed")) Fixture.empty_world _ _ w2 Hdet Hstaged)).
Defined.
